(** * misconfig-auto-remediator: the remediation engine of [main.py]

    A shallow embedding of [load_config], [remediate_misconfiguration] and
    the remediation loop of [main], over an explicit Python object store.

    Python dictionaries and lists are mutable objects reached through
    references: the assignment [current[last_part] = suggested_value] of
    [remediate_misconfiguration] writes into the very object that the
    configuration holds, and it stores a reference to the finding's own
    [suggested_value] object.  The store is therefore modelled
    explicitly: containers live in a heap, values hold addresses. *)

From stdpp Require Import base option list strings gmap fin_maps.
From Stdlib Require Import ZArith Ascii Floats.SpecFloat.

Set Warnings "-clear-no-such-hyp".

Local Open Scope string_scope.
Local Open Scope list_scope.

(** ** Data model *)

(** Identity of a container object (Python's [id]). *)
Definition addr := nat.

(** What [json.load] and [yaml.safe_load] produce: scalars are immediate,
    lists and dictionaries are references into the heap. *)
Inductive value :=
  | VNone
  | VBool (b : bool)
  | VInt (n : Z)
  | VFloat (x : spec_float)
  | VStr (s : string)
  | VRef (a : addr).

(** A container object.  Dictionary keys are strings: a path segment is a
    [str], and a key of another type (which YAML allows in the
    configuration) never compares equal to it, so such keys are
    invisible to the engine.  The report is JSON, whose keys are all
    strings. *)
Inductive object :=
  | OList (items : list value)
  | ODict (items : gmap string value).

Abbreviation heap := (gmap addr object).

(** The exceptions the engine can meet; all of them are subclasses of
    [Exception]. *)
Inductive exn :=
  | AttributeError
  | TypeError
  | KeyError
  | SystemError
  | YAMLError
  | JSONDecodeError
  | FileNotFoundError
  | NotValidYamlOrJson              (* the ValueError of line 42 *)
  | ValueError                      (* an integer too long to be printed *)
  | ErrorLoading (cause : exn)      (* the Exception of line 46 *)
  | LibraryError.                   (* anything else a parser may raise *)

(** The records written through [logging]. *)
Inductive record :=
  | Attempting (misconfiguration : value)          (* info, line 86 *)
  | MissingFields                                  (* warning, line 96 *)
  | PathNotFound (path : value)                    (* warning, lines 107, 116 *)
  | Changing (path : value) (old new : value)      (* info, line 113 *)
  | ErrorRemediating (e : exn)                     (* error, line 121 *)
  | NoMisconfigurations.                           (* info, line 179 *)

(** The specification's [Outcome] of a finding is read off the record that
    closes the finding's processing; the caught exception of line 121 is
    a fourth kind the specification does not name. *)
Inductive outcome :=
  | Applied (old new : value)
  | SkippedMissingFields
  | SkippedPathNotFound (path : value)
  | Errored (e : exn).

Definition outcome_of (r : record) : option outcome :=
  match r with
  | MissingFields => Some SkippedMissingFields
  | PathNotFound p => Some (SkippedPathNotFound p)
  | Changing _ old new => Some (Applied old new)
  | ErrorRemediating e => Some (Errored e)
  | Attempting _ | NoMisconfigurations => None
  end.

Definition outcomes (log : list record) : list outcome := omap outcome_of log.

(** The interpreter state the engine acts on. *)
Record state := State { st_heap : heap; st_log : list record }.

(** ** A state and exception monad *)

Inductive result (A : Type) :=
  | Ok (x : A)
  | Raise (e : exn).
Arguments Ok {A} x.
Arguments Raise {A} e.

Definition M (A : Type) : Type := state → state * result A.

Definition ret {A} (x : A) : M A := λ σ, (σ, Ok x).
Definition raise {A} (e : exn) : M A := λ σ, (σ, Raise e).
Definition bind {A B} (m : M A) (k : A → M B) : M B :=
  λ σ, match m σ with
       | (σ', Ok x) => k x σ'
       | (σ', Raise e) => (σ', Raise e)
       end.

(** [try: body except Exception as e: handler e]: the handler runs in the
    state the body had reached when it raised. *)
Definition try_except {A} (body : M A) (handler : exn → M A) : M A :=
  λ σ, match body σ with
       | (σ', Ok x) => (σ', Ok x)
       | (σ', Raise e) => handler e σ'
       end.

Notation "'let*' x := m 'in' k" := (bind m (λ x, k))
  (at level 10, x name, m at level 100, k at level 200, only parsing).

Definition logging (r : record) : M unit :=
  λ σ, (State (st_heap σ) (st_log σ ++ [r]), Ok tt).

Definition load (a : addr) : M object :=
  λ σ, match st_heap σ !! a with
       | Some o => (σ, Ok o)
       | None => (σ, Raise SystemError)
       end.

Definition store (a : addr) (o : object) : M unit :=
  λ σ, (State (<[a := o]> (st_heap σ)) (st_log σ), Ok tt).

(** ** Python primitives used by the engine *)

(** [needle in hay] for two [str]. *)
Fixpoint is_substring (needle hay : string) : bool :=
  String.prefix needle hay ||
  match hay with
  | EmptyString => false
  | String _ hay' => is_substring needle hay'
  end.

(** [s.split(sep)] for a one-character separator: never an empty list. *)
Fixpoint split_acc (sep : ascii) (acc : string) (s : string) : list string :=
  match s with
  | EmptyString => [String.rev acc]
  | String c s' =>
      if Ascii.eqb c sep then String.rev acc :: split_acc sep EmptyString s'
      else split_acc sep (String c acc) s'
  end.

Definition split (sep : ascii) (s : string) : list string :=
  split_acc sep EmptyString s.

Definition dot : ascii := "."%char.

(** [x == VStr s] as the list membership test sees it. *)
Definition eq_str (s : string) (v : value) : bool :=
  match v with
  | VStr s' => String.eqb s s'
  | _ => false
  end.

(** Truth value of an object: empty containers are false. *)
Definition object_truthy (o : object) : bool :=
  match o with
  | OList l => negb (bool_decide (l = []))
  | ODict d => negb (bool_decide (d = ∅))
  end.

Definition float_is_zero (x : spec_float) : bool :=
  match x with
  | S754_zero _ => true
  | _ => false
  end.

(** Python truthiness ([not v] is its negation). *)
Definition truthy (v : value) : M bool :=
  match v with
  | VNone => ret false
  | VBool b => ret b
  | VInt n => ret (negb (Z.eqb n 0))
  | VFloat x => ret (negb (float_is_zero x))
  | VStr s => ret (negb (String.eqb s ""))
  | VRef a => let* o := load a in ret (object_truthy o)
  end.

(** [not v]. *)
Definition py_not (v : value) : M bool := let* b := truthy v in ret (negb b).

(** [v.get(key)]: only dictionaries have the method. *)
Definition py_get (v : value) (key : string) : M value :=
  match v with
  | VRef a =>
      let* o := load a in
      match o with
      | ODict d => ret (default VNone (d !! key))
      | OList _ => raise AttributeError
      end
  | _ => raise AttributeError
  end.

(** [v.split(".")]: only strings have the method. *)
Definition py_split (v : value) : M (list string) :=
  match v with
  | VStr s => ret (split dot s)
  | _ => raise AttributeError
  end.

(** [key in v]. *)
Definition py_contains (key : string) (v : value) : M bool :=
  match v with
  | VRef a =>
      let* o := load a in
      match o with
      | ODict d => ret (bool_decide (is_Some (d !! key)))
      | OList l => ret (existsb (eq_str key) l)
      end
  | VStr s => ret (is_substring key s)
  | _ => raise TypeError
  end.

(** [v[key]] with a [str] key. *)
Definition py_getitem (v : value) (key : string) : M value :=
  match v with
  | VRef a =>
      let* o := load a in
      match o with
      | ODict d =>
          match d !! key with
          | Some x => ret x
          | None => raise KeyError
          end
      | OList _ => raise TypeError
      end
  | _ => raise TypeError
  end.

(** [v[key] = x] with a [str] key. *)
Definition py_setitem (v : value) (key : string) (x : value) : M unit :=
  match v with
  | VRef a =>
      let* o := load a in
      match o with
      | ODict d => store a (ODict (<[key := x]> d))
      | OList _ => raise TypeError
      end
  | _ => raise TypeError
  end.

(** ** Formatting a value

    The f-string of line 113 calls [str] on the old and on the suggested
    value before anything is logged or assigned.  [str] of an integer
    with more than [sys.int_max_str_digits] decimal digits raises
    [ValueError], and so does [str] of a container that holds such an
    integer at any depth (a container prints the [repr] of its items; an
    object met again while it is being printed is abbreviated, so every
    object is opened).  [json.load] refuses the literals of such
    integers, [yaml.safe_load] accepts them in hexadecimal: they can
    occur in the configuration, not in a finding, which is why the
    f-string of line 86, which prints the finding, is taken to succeed. *)

(** The default of CPython 3.11 and later. *)
Definition int_max_str_digits : Z := 4300.

Definition int_printable (n : Z) : bool :=
  (Z.abs n <? 10 ^ int_max_str_digits)%Z.

(** No integer beyond the limit is reached from [v] through at most
    [depth] containers. *)
Fixpoint printable_upto (depth : nat) (h : heap) (v : value) : bool :=
  match v with
  | VInt n => int_printable n
  | VRef a =>
      match depth with
      | 0 => true
      | S depth' =>
          match h !! a with
          | Some (OList l) => forallb (printable_upto depth' h) l
          | Some (ODict d) =>
              bool_decide (map_Forall (λ _ x, printable_upto depth' h x = true) d)
          | None => true
          end
      end
  | _ => true
  end.

(** An object that can be reached at all is reached through no more
    containers than the heap has. *)
Definition printable (h : heap) (v : value) : bool :=
  printable_upto (size h) h v.

(** [str(v)], for its exception only. *)
Definition py_format (v : value) : M unit :=
  λ σ, if printable (st_heap σ) v then (σ, Ok tt) else (σ, Raise ValueError).

(** ** [remediate_misconfiguration] *)

(** Lines 103-108: the loop over all segments but the last.  [None] is the
    early [return config] of line 108 (the warning is logged by the
    caller of [descend], who knows [path]). *)
Fixpoint descend (current : value) (init : list string) : M (option value) :=
  match init with
  | [] => ret (Some current)
  | part :: init' =>
      let* found := py_contains part current in
      if found then
        let* next := py_getitem current part in
        descend next init'
      else ret None
  end.

(** Lines 92-117, the body of the [try]. *)
Definition remediate_body (config misconfiguration : value) : M unit :=
  let* path := py_get misconfiguration "path" in
  let* suggested_value := py_get misconfiguration "suggested_value" in
  let* no_path := py_not path in
  let* skip := (if no_path then ret true else py_not suggested_value) in
  if skip then
    logging MissingFields
  else
    let* parts := py_split path in
    let* reached := descend config (removelast parts) in
    match reached with
    | None => logging (PathNotFound path)
    | Some current =>
        let last_part := List.last parts "" in
        let* found := py_contains last_part current in
        if found then
          let* old := py_getitem current last_part in
          let* _ := py_format old in
          let* _ := py_format suggested_value in
          let* _ := logging (Changing path old suggested_value) in
          py_setitem current last_part suggested_value
        else
          logging (PathNotFound path)
    end.

(** Lines 66-123. *)
Definition remediate_misconfiguration (config misconfiguration : value) : M value :=
  let* _ := logging (Attempting misconfiguration) in
  let* _ := try_except (remediate_body config misconfiguration)
                       (λ e, logging (ErrorRemediating e)) in
  ret config.

(** Lines 177-182 of [main]: the remediation pass over the list found
    under the report's ["misconfigurations"] key.  [remediate_each] is
    the [for] loop of lines 181-182, [remediate_all] the [if] around it. *)
Fixpoint remediate_each (config : value) (misconfigurations : list value) : M value :=
  match misconfigurations with
  | [] => ret config
  | misconfiguration :: rest =>
      let* config' := remediate_misconfiguration config misconfiguration in
      remediate_each config' rest
  end.

Definition remediate_all (config : value) (misconfigurations : list value) : M value :=
  match misconfigurations with
  | [] => let* _ := logging NoMisconfigurations in ret config
  | _ => remediate_each config misconfigurations
  end.

(** ** [load_config] *)

(** What a parser makes of a text: a value (its containers allocated in
    the heap), a rejection through the parser's own error class
    ([yaml.YAMLError], [json.JSONDecodeError]), or some other exception. *)
Inductive parsed :=
  | Parsed (v : value)
  | Rejected
  | Crashed.

Section load_config.
(** The file system and the two parsers are not part of the repository. *)
Variable read_file : string → option string.
Variable yaml_safe_load json_load : string → heap → heap * parsed.

Definition call_parser (parser : string → heap → heap * parsed)
    (own_error : exn) (text : string) : M value :=
  λ σ, match parser text (st_heap σ) with
       | (h, Parsed v) => (State h (st_log σ), Ok v)
       | (h, Rejected) => (State h (st_log σ), Raise own_error)
       | (h, Crashed) => (State h (st_log σ), Raise LibraryError)
       end.

(** Lines 27-46. *)
Definition load_config (config_file : string) : M (value * string) :=
  try_except
    (match read_file config_file with
     | None => raise FileNotFoundError
     | Some text =>
         try_except
           (let* config := call_parser yaml_safe_load YAMLError text in
            ret (config, "yaml"))
           (λ e, match e with
                 | YAMLError =>
                     try_except
                       (let* config := call_parser json_load JSONDecodeError text in
                        ret (config, "json"))
                       (λ e', match e' with
                              | JSONDecodeError => raise NotValidYamlOrJson
                              | _ => raise e'
                              end)
                 | _ => raise e
                 end)
     end)
    (λ e, match e with
          | FileNotFoundError => raise FileNotFoundError
          | _ => raise (ErrorLoading e)
          end).
End load_config.

(** ** Reading the heap without changing the state *)

(** The result of a computation run on a heap with an empty log. *)
Definition eval {A} (m : M A) (h : heap) : result A := (m (State h [])).2.

(** A reader leaves the state alone and looks at the heap only. *)
Definition reader {A} (m : M A) : Prop :=
  ∀ σ, m σ = (σ, eval m (st_heap σ)).


(** ** Vocabulary of the statements *)

(** The node a sequence of keys leads to from [v], going through
    dictionaries only. *)
Fixpoint node_at (h : heap) (v : value) (keys : list string) : option value :=
  match keys with
  | [] => Some v
  | key :: keys' =>
      match v with
      | VRef a =>
          match h !! a with
          | Some (ODict d) =>
              match d !! key with
              | Some v' => node_at h v' keys'
              | None => None
              end
          | _ => None
          end
      | _ => None
      end
  end.

(** [m] is a finding: a dictionary whose [get("path")] and
    [get("suggested_value")] give the two values ([VNone] when absent). *)
Definition finding (h : heap) (m path suggested_value : value) : Prop :=
  ∃ f d, m = VRef f ∧ h !! f = Some (ODict d) ∧
         default VNone (d !! "path") = path ∧
         default VNone (d !! "suggested_value") = suggested_value.

(** [v] is true in a condition. *)
Definition is_truthy (h : heap) (v : value) : Prop := eval (truthy v) h = Ok true.

(** The heap after [d[k] = v] on the dictionary [d] stored at [a]. *)
Definition rebind (a : addr) (d : gmap string value) (k : string) (v : value)
    (h : heap) : heap :=
  <[a := ODict (<[k := v]> d)]> h.

(** ** The plan of one call, as a function of the heap

    Everything [remediate_misconfiguration] does before its single write
    only reads the heap, so what the call is going to do is a function of
    the heap it starts from.  [plan_of] is the body of the [try] with its
    effects postponed; [remediate_misconfiguration_plan] proves that
    the code performs exactly this plan. *)
Inductive plan :=
  | PRaise (e : exn)
  | PLog (r : record)
  | PSet (path : value) (a : addr) (d : gmap string value) (k : string)
         (old new : value).

Definition plan_slot (h : heap) (path suggested_value current : value)
    (last_part : string) : plan :=
  match eval (py_contains last_part current) h with
  | Raise e => PRaise e
  | Ok false => PLog (PathNotFound path)
  | Ok true =>
      match eval (py_getitem current last_part) h with
      | Raise e => PRaise e
      | Ok old =>
          if printable h old && printable h suggested_value then
            match current with
            | VRef a =>
                match h !! a with
                | Some (ODict d) => PSet path a d last_part old suggested_value
                | _ => PRaise SystemError
                end
            | _ => PRaise SystemError
            end
          else PRaise ValueError
      end
  end.

Definition plan_path (h : heap) (config path suggested_value : value) : plan :=
  match eval (py_split path) h with
  | Raise e => PRaise e
  | Ok parts =>
      match eval (descend config (removelast parts)) h with
      | Raise e => PRaise e
      | Ok None => PLog (PathNotFound path)
      | Ok (Some current) =>
          plan_slot h path suggested_value current (List.last parts "")
      end
  end.

Definition plan_skip (h : heap) (path suggested_value : value) : result bool :=
  match eval (py_not path) h with
  | Raise e => Raise e
  | Ok true => Ok true
  | Ok false => eval (py_not suggested_value) h
  end.

Definition plan_of (h : heap) (config m : value) : plan :=
  match eval (py_get m "path") h with
  | Raise e => PRaise e
  | Ok path =>
      match eval (py_get m "suggested_value") h with
      | Raise e => PRaise e
      | Ok suggested_value =>
          match plan_skip h path suggested_value with
          | Raise e => PRaise e
          | Ok true => PLog MissingFields
          | Ok false => plan_path h config path suggested_value
          end
      end
  end.

(** The state and log a plan leads to. *)
Definition perform (m : value) (pl : plan) (σ : state) : state :=
  match pl with
  | PRaise e => State (st_heap σ) (st_log σ ++ [Attempting m; ErrorRemediating e])
  | PLog r => State (st_heap σ) (st_log σ ++ [Attempting m; r])
  | PSet path a d k old new =>
      State (rebind a d k new (st_heap σ))
            (st_log σ ++ [Attempting m; Changing path old new])
  end.

Definition record_of (pl : plan) : record :=
  match pl with
  | PRaise e => ErrorRemediating e
  | PLog r => r
  | PSet path _ _ _ old new => Changing path old new
  end.

(** One iteration of the loop of [main], and the whole loop, on states. *)
Definition step (config : value) (σ : state) (m : value) : state :=
  perform m (plan_of (st_heap σ) config m) σ.

Definition pass (config : value) (misconfigurations : list value) (σ : state) : state :=
  foldl (step config) σ misconfigurations.

(** A finding with a string [path] that the guard of line 95 lets
    through. *)
Definition accepted (h : heap) (m : value) (p : string) (sv : value) : Prop :=
  finding h m (VStr p) sv ∧ plan_skip h (VStr p) sv = Ok false.

(** Some dictionary on the way lacks the key that the path asks of it:
    the segments [pre] lead to a dictionary without the next segment. *)
Definition key_missing (h : heap) (config : value) (parts : list string) : Prop :=
  ∃ pre key post a d,
    parts = pre ++ key :: post ∧ node_at h config pre = Some (VRef a) ∧
    h !! a = Some (ODict d) ∧ d !! key = None.

(** A scalar or a sequence. *)
Definition non_mapping (h : heap) (v : value) : Prop :=
  match v with
  | VRef a => ∃ l, h !! a = Some (OList l)
  | _ => True
  end.

(** [key in node] is false: a string without [key] as a substring, or a
    sequence without the string [key] among its elements. *)
Definition lacks_segment (h : heap) (key : string) (node : value) : bool :=
  match node with
  | VStr s => negb (is_substring key s)
  | VRef a =>
      match h !! a with
      | Some (OList l) => negb (existsb (eq_str key) l)
      | _ => false
      end
  | _ => false
  end.

(** Two heaps with the same objects, the same lists and the same keys in
    every dictionary: no container and no key was created or removed. *)
Definition same_shape (h h' : heap) : Prop :=
  ∀ a, match h !! a, h' !! a with
       | Some (ODict d), Some (ODict d') => dom d = dom d'
       | Some (OList l), Some (OList l') => l = l'
       | None, None => True
       | _, _ => False
       end.

(** ** Concrete documents and findings *)

(** The document [{"security": {"password_policy": {"minimum_length": 4}},
    "debug": true, "port": 5, "name": "xbx", "tags": ["b"]}] at address 1,
    and findings at addresses 10 and up. *)
Definition scenario_heap : heap :=
  list_to_map
   [ (1, ODict {[ "security" := VRef 2; "debug" := VBool true;
                   "port" := VInt 5; "name" := VStr "xbx"; "tags" := VRef 4 ]});
     (2, ODict {[ "password_policy" := VRef 3 ]});
     (3, ODict {[ "minimum_length" := VInt 4 ]});
     (4, OList [VStr "b"]);
     (10, ODict {[ "path" := VStr "security.password_policy.minimum_length";
                    "suggested_value" := VInt 12 ]});
     (11, ODict {[ "path" := VStr "security.password_policy.max_age";
                    "suggested_value" := VInt 90 ]});
     (12, ODict {[ "path" := VStr "network.firewall.rules";
                    "suggested_value" := VRef 13 ]});
     (13, OList []);
     (14, ODict {[ "path" := VStr "security.password_policy.minimum_length" ]});
     (15, ODict {[ "path" := VStr "debug"; "suggested_value" := VBool false ]});
     (16, ODict {[ "path" := VStr "network.firewall.rules" ]});
     (17, ODict {[ "path" := VStr "port.b"; "suggested_value" := VInt 1 ]});
     (18, ODict {[ "path" := VStr "name.b"; "suggested_value" := VInt 1 ]});
     (19, ODict {[ "path" := VStr "tags.b"; "suggested_value" := VInt 1 ]});
     (20, ODict {[ "path" := VStr "name.q.r"; "suggested_value" := VInt 1 ]}) ].

(** The same heap with the finding [{"path":
    "security.password_policy.max_age", "suggested_value": 0}] at
    address 21. *)
Definition zero_suggestion_heap : heap :=
  <[21 := ODict {[ "path" := VStr "security.password_policy.max_age";
                   "suggested_value" := VInt 0 ]}]> scenario_heap.

(** ** Statements that are examined at concrete inputs *)

(** "A path that runs into a scalar or a sequence behaves like a missing
    key", for one finding on one heap: the segments [pre] lead to a
    node that is not a dictionary and [key] is the segment after them. *)
Definition non_mapping_skipped (h : heap) (config m : value) : Prop :=
  ∀ p sv pre key post node,
    finding h m (VStr p) sv → split dot p = pre ++ key :: post →
    node_at h config pre = Some node → non_mapping h node →
    remediate_misconfiguration config m (State h []) =
      (State h [Attempting m; PathNotFound (VStr p)], Ok config).

(** ** Applying the same findings twice *)





(** The document [{"a": {"k": 0}}] at address 1, a finding for
    ["a.k.z"] and a finding that puts the dictionary [{"z": 1}] of
    address 5 at ["a.k"]. *)
Definition retouched_heap : heap :=
  list_to_map
    [ (1, ODict {[ "a" := VRef 2 ]});
      (2, ODict {[ "k" := VInt 0 ]});
      (3, ODict {[ "path" := VStr "a.k.z"; "suggested_value" := VInt 9 ]});
      (4, ODict {[ "path" := VStr "a.k"; "suggested_value" := VRef 5 ]});
      (5, ODict {[ "z" := VInt 1 ]}) ].

(** The dictionary bindings a call looks up on its way: those of the
    finding, and those the loop of lines 103-108 goes through. *)
Fixpoint walk (h : heap) (v : value) (keys : list string) : list (addr * string) :=
  match keys with
  | [] => []
  | key :: keys' =>
      match v with
      | VRef a =>
          (a, key) ::
          match h !! a with
          | Some (ODict d) =>
              match d !! key with
              | Some v' => walk h v' keys'
              | None => []
              end
          | _ => []
          end
      | _ => []
      end
  end.

Definition reads (h : heap) (config m : value) : list (addr * string) :=
  match m with
  | VRef f =>
      (f, "path") :: (f, "suggested_value") ::
      match h !! f with
      | Some (ODict d) =>
          match d !! "path" with
          | Some (VStr p) => walk h config (removelast (split dot p))
          | _ => []
          end
      | _ => []
      end
  | _ => []
  end.

(** The binding a call assigns, with the value it assigns. *)
Definition write (h : heap) (config m : value) : option (addr * string * value) :=
  match plan_of h config m with
  | PSet _ a _ k _ new => Some (a, k, new)
  | _ => None
  end.

Definition writes (h : heap) (config : value) (F : list value) :
    list (addr * string * value) :=
  omap (write h config) F.

(** Findings that do not interfere on [h]: no finding looks up a binding
    that a finding of the list assigns, and two findings that assign the
    same binding assign the same value. *)
Definition independent (h : heap) (config : value) (F : list value) : Prop :=
  Forall (λ m, Forall (λ w, w.1 ∉ reads h config m) (writes h config F)) F ∧
  Forall (λ w1, Forall (λ w2, w1.1 = w2.1 → w1.2 = w2.2) (writes h config F))
         (writes h config F).

(** Heaps that differ at most in the values of the bindings [W]. *)
Definition similar (W : list (addr * string)) (h h' : heap) : Prop :=
  ∀ a, match h !! a, h' !! a with
       | Some (ODict d), Some (ODict d') =>
           dom d = dom d' ∧ ∀ k, (a, k) ∉ W → d !! k = d' !! k
       | Some (OList l), Some (OList l') => l = l'
       | None, None => True
       | _, _ => False
       end.





#[global] Instance spec_float_eq_dec : EqDecision spec_float.
Proof. solve_decision. Defined.

#[global] Instance value_eq_dec : EqDecision value.
Proof. solve_decision. Defined.

#[global] Instance independent_dec h config F : Decision (independent h config F).
Proof. unfold independent. apply _. Defined.




(** ** Further vocabulary *)

(** The record that closes a call, as the caller of
    [remediate_misconfiguration] finds it at the end of the log. *)
Definition closing_record (config m : value) (σ : state) : option record :=
  last (st_log (remediate_misconfiguration config m σ).1).

(** The heap a call leaves. *)
Definition heap_after (config m : value) (σ : state) : heap :=
  st_heap (remediate_misconfiguration config m σ).1.

(** The document [{"a": {"k": 0}, "x.y": 1, "b": 0}] at address 1 and
    findings at addresses 10 and up. *)
Definition extra_heap : heap :=
  list_to_map
    [ (1, ODict {[ "a" := VRef 2; "x.y" := VInt 1; "b" := VInt 0 ]});
      (2, ODict {[ "k" := VInt 0 ]});
      (10, ODict {[ "path" := VInt 5; "suggested_value" := VInt 1 ]});
      (11, ODict {[ "path" := VStr "a.k"; "suggested_value" := VInt 7 ]});
      (12, ODict {[ "path" := VStr "b"; "suggested_value" := VInt 8 ]});
      (13, ODict {[ "path" := VStr "x.y"; "suggested_value" := VInt 9 ]}) ].


(** ** The orchestration layer: [load_report], [write_config], [main]

    These functions act on files and on the standard output as well as
    on the heap.  The file system holds the contents of the regular
    files, all of them readable, and knows which file a path names;
    whether a path can be opened for writing is a parameter.  The paths
    given as configuration and as report are taken to name a regular
    file or nothing: a directory, which [os.path.exists] finds and
    [open] refuses, is met only as the destination of the backup. *)

(** The file system.  [fs_file p] is the file that the path [p] names:
    two paths that name one file (["x"] and ["./x"], a symbolic link and
    its target, two hard links) have one image.  [fs_copy src dst] is
    the path that [shutil.copy2(src, dst)] writes: [dst], or, when [dst]
    is a directory, the path inside it with the base name of [src].
    Nothing in [main.py] makes or removes a directory or a link, so
    [fs_file] and [fs_copy] stay as they are; only [fs_contents], the
    contents by file, changes. *)
Record files := Files {
  fs_file : string → string;
  fs_copy : string → string → string;
  fs_contents : gmap string string
}.

(** Reading and writing go through the path: [fs !! p] is the contents
    of the file that [p] names, [<[p := text]> fs] writes that file. *)
#[global] Instance files_lookup : Lookup string string files :=
  λ p fs, fs_contents fs !! fs_file fs p.

#[global] Instance files_insert : Insert string string files :=
  λ p text fs,
    Files (fs_file fs) (fs_copy fs) (<[fs_file fs p := text]> (fs_contents fs)).

(** Two paths that name one file. *)
Definition same_file (fs : files) (p q : string) : Prop :=
  fs_file fs p = fs_file fs q.

#[global] Instance same_file_dec fs p q : Decision (same_file fs p q).
Proof. unfold same_file. apply _. Defined.

(** A file system in which every path names a file of its own and no
    path is a directory. *)
Definition plain (contents : gmap string string) : files :=
  Files (λ p, p) (λ _ dst, dst) contents.

(** The exceptions of this layer.  An exception of the engine or of
    [load_config] travels as it is. *)
Inductive error :=
  | Engine (e : exn)
  | ReportNotValidJson               (* the ValueError of line 61 *)
  | ErrorLoadingReport (cause : error)   (* the Exception of line 63 *)
  | InvalidConfigType                (* the ValueError of line 137 *)
  | ErrorWriting (cause : error)     (* the Exception of line 139 *)
  | OSError                          (* a file cannot be opened or copied *)
  | DumpError.                       (* a serializer raised *)

(** What [main] writes through [logging]; the records of the remediation
    pass (lines 86-121 and 179) are those of the engine. *)
Inductive event :=
  | ConfigNotFound (path : string)       (* error, line 157 *)
  | ReportNotFound (path : string)       (* error, line 161 *)
  | BackupCreated (path : string)        (* info, line 174 *)
  | Remediation (r : record)
  | DryRunEnabled                        (* info, line 186 *)
  | ConfigWritten (path : string)        (* info, line 198 *)
  | ErrorOccurred (e : error)            (* error, line 201 *)
  | Completed.                           (* info, line 204 *)

Record world := World {
  w_fs : files;
  w_heap : heap;
  w_log : list event;
  w_out : list string
}.

Inductive answer (A : Type) :=
  | Done (x : A)
  | Fail (e : error).
Arguments Done {A} x.
Arguments Fail {A} e.

Definition W (A : Type) : Type := world → world * answer A.

Definition wret {A} (x : A) : W A := λ w, (w, Done x).
Definition wfail {A} (e : error) : W A := λ w, (w, Fail e).
Definition wbind {A B} (m : W A) (k : A → W B) : W B :=
  λ w, match m w with
       | (w', Done x) => k x w'
       | (w', Fail e) => (w', Fail e)
       end.
Definition wtry {A} (body : W A) (handler : error → W A) : W A :=
  λ w, match body w with
       | (w', Done x) => (w', Done x)
       | (w', Fail e) => handler e w'
       end.

Notation "'do*' x := m 'in' k" := (wbind m (λ x, k))
  (at level 10, x name, m at level 100, k at level 200, only parsing).

(** An engine computation inside the world: it runs on the world's heap
    and its records join the world's log. *)
Definition lift {A} (m : M A) : W A :=
  λ w, let '(σ, r) := m (State (w_heap w) []) in
       (World (w_fs w) (st_heap σ) (w_log w ++ (Remediation <$> st_log σ))
              (w_out w),
        match r with
        | Ok x => Done x
        | Raise e => Fail (Engine e)
        end).

Definition log_event (ev : event) : W unit :=
  λ w, (World (w_fs w) (w_heap w) (w_log w ++ [ev]) (w_out w), Done tt).

(** [print(text)]. *)
Definition print (text : string) : W unit :=
  λ w, (World (w_fs w) (w_heap w) (w_log w) (w_out w ++ [text]), Done tt).

(** [os.path.exists(path)]. *)
Definition path_exists (path : string) (w : world) : bool :=
  bool_decide (is_Some (w_fs w !! path)).

(** The characters of a string held as UTF-8 bytes: a character starts
    at every byte that is not a continuation byte [10xxxxxx]. *)
Definition is_continuation (c : ascii) : bool :=
  match c with
  | Ascii _ _ _ _ _ _ b6 b7 => b7 && negb b6
  end.

Definition starts_with_continuation (s : string) : bool :=
  match s with
  | String c _ => is_continuation c
  | EmptyString => false
  end.

Fixpoint characters (s : string) : list string :=
  match s with
  | EmptyString => []
  | String c s' =>
      match characters s' with
      | g :: gs =>
          if starts_with_continuation s' then String c g :: gs
          else String c EmptyString :: g :: gs
      | [] => [String c EmptyString]
      end
  end.

Section orchestrator.
(** The parsers and serializers are libraries.  A serializer gives the
    text it emits and whether it completed: [dump] writes to the file as
    it goes, so a serializer that raises may have written a part.  The
    order in which a dictionary yields its keys is the order of
    insertion, which the heap does not record. *)
Variable yaml_safe_load json_load : string → heap → heap * parsed.
Variable yaml_dump json_dump : heap → value → string * bool.
Variable writable : string → bool.
Variable key_order : gmap string value → list string.

Definition load_config_w (config_file : string) : W (value * string) :=
  λ w, lift (load_config (λ p, w_fs w !! p) yaml_safe_load json_load
               config_file) w.

(** Lines 50-63. *)
Definition load_report (report_file : string) : W value :=
  wtry
    (λ w, match w_fs w !! report_file with
          | None => (w, Fail (Engine FileNotFoundError))
          | Some text => lift (call_parser json_load JSONDecodeError text) w
          end)
    (λ e, match e with
          | Engine FileNotFoundError => wfail (Engine FileNotFoundError)
          | Engine JSONDecodeError => wfail ReportNotValidJson
          | _ => wfail (ErrorLoadingReport e)
          end).

(** [dumper(config, f, indent=2)] into the open file [path]. *)
Definition dump_to (dumper : heap → value → string * bool) (config : value)
    (path : string) : W unit :=
  λ w, let '(text, completed) := dumper (w_heap w) config in
       (World (<[path := text]> (w_fs w)) (w_heap w) (w_log w) (w_out w),
        if completed then Done tt else Fail DumpError).

(** [open(path, "w")]: the file is created or truncated. *)
Definition open_w (path : string) : W unit :=
  λ w, if writable path
       then (World (<[path := ""]> (w_fs w)) (w_heap w) (w_log w) (w_out w),
             Done tt)
       else (w, Fail OSError).

(** Lines 126-139. *)
Definition write_config (config : value) (output_file config_type : string) :
    W unit :=
  wtry
    (do* _ := open_w output_file in
     if String.eqb config_type "yaml" then dump_to yaml_dump config output_file
     else if String.eqb config_type "json" then dump_to json_dump config output_file
     else wfail InvalidConfigType)
    (λ e, wfail (ErrorWriting e)).

(** [dumper(config, indent=2)] to a string. *)
Definition dumps (dumper : heap → value → string * bool) (config : value) :
    W string :=
  λ w, let '(text, completed) := dumper (w_heap w) config in
       (w, if completed then Done text else Fail DumpError).

(** [shutil.copy2(src, dst)], as far as contents go: the copy goes to
    [dst], or into [dst] when that is a directory; copying a file onto
    itself is refused ([shutil.SameFileError], an [OSError]). *)
Definition copy2 (src dst : string) : W unit :=
  λ w, let target := fs_copy (w_fs w) src dst in
       match w_fs w !! src with
       | None => (w, Fail (Engine FileNotFoundError))
       | Some text =>
           if bool_decide (same_file (w_fs w) src target) then (w, Fail OSError)
           else if writable target
           then (World (<[target := text]> (w_fs w)) (w_heap w) (w_log w)
                       (w_out w),
                 Done tt)
           else (w, Fail OSError)
       end.

(** [report.get(key, [])]: only a dictionary has the method; the default
    is a new empty list, built before the lookup. *)
Definition py_get_or_empty (v : value) (key : string) : W value :=
  λ w, let a := fresh (dom (w_heap w)) in
       let w' := World (w_fs w) (<[a := OList []]> (w_heap w)) (w_log w)
                       (w_out w) in
       match v with
       | VRef f =>
           match w_heap w !! f with
           | Some (ODict d) => (w', Done (default (VRef a) (d !! key)))
           | Some (OList _) => (w, Fail (Engine AttributeError))
           | None => (w, Fail (Engine SystemError))
           end
       | _ => (w, Fail (Engine AttributeError))
       end.

(** The items a [for] loop takes from [v]: the elements of a list, the
    keys of a dictionary, the characters of a string; anything else is
    not iterable. *)
Definition py_iter (v : value) : M (list value) :=
  match v with
  | VRef a =>
      let* o := load a in
      match o with
      | OList l => ret l
      | ODict d => ret (VStr <$> key_order d)
      end
  | VStr s => ret (VStr <$> characters s)
  | _ => raise TypeError
  end.

(** The parsed command line. *)
Record args := Args {
  config_file : string;
  report_file : string;
  output_file : option string;
  dry_run : bool;
  backup : bool
}.

(** How [main] ends: it returns, or it calls [sys.exit]. *)
Inductive status :=
  | Returned
  | Exited (code : nat).

(** Lines 193-196. *)
Definition output_file_path (a : args) : string :=
  match output_file a with
  | Some path => if String.eqb path "" then config_file a else path
  | None => config_file a
  end.

(** The path that the backup of line 173 writes. *)
Definition backup_path (fs : files) (a : args) : string :=
  fs_copy fs (config_file a) (config_file a +:+ ".bak").

(** Lines 171-174. *)
Definition main_backup (a : args) : W unit :=
  if backup a && negb (dry_run a) then
    let backup_file := config_file a +:+ ".bak" in
    do* _ := copy2 (config_file a) backup_file in
    log_event (BackupCreated backup_file)
  else wret tt.

(** Lines 177-182. *)
Definition main_remediate (config report : value) : W value :=
  do* misconfigurations := py_get_or_empty report "misconfigurations" in
  do* none := lift (py_not misconfigurations) in
  if none then
    do* _ := log_event (Remediation NoMisconfigurations) in
    wret config
  else
    do* items := lift (py_iter misconfigurations) in
    lift (remediate_each config items).

(** Lines 185-198. *)
Definition main_output (a : args) (config : value) (config_type : string) :
    W unit :=
  if dry_run a then
    do* _ := log_event DryRunEnabled in
    if String.eqb config_type "yaml" then
      do* text := dumps yaml_dump config in print text
    else if String.eqb config_type "json" then
      do* text := dumps json_dump config in print text
    else wret tt
  else
    do* _ := write_config config (output_file_path a) config_type in
    log_event (ConfigWritten (output_file_path a)).

(** Lines 166-198, the body of the [try]. *)
Definition main_body (a : args) : W unit :=
  do* loaded := load_config_w (config_file a) in
  do* report := load_report (report_file a) in
  do* _ := main_backup a in
  do* config := main_remediate loaded.1 report in
  main_output a config loaded.2.

(** Lines 142-204. *)
Definition main (a : args) (w : world) : world * status :=
  if negb (path_exists (config_file a) w) then
    ((log_event (ConfigNotFound (config_file a)) w).1, Exited 1)
  else if negb (path_exists (report_file a) w) then
    ((log_event (ReportNotFound (report_file a)) w).1, Exited 1)
  else
    match main_body a w with
    | (w', Done _) => ((log_event Completed w').1, Returned)
    | (w', Fail e) => ((log_event (ErrorOccurred e) w').1, Exited 1)
    end.
End orchestrator.

(** The serializer that lines 132-135 and 188-191 choose for a tag. *)
Definition dumper_for (yaml_dump json_dump : heap → value → string * bool)
    (config_type : string) : option (heap → value → string * bool) :=
  if String.eqb config_type "yaml" then Some yaml_dump
  else if String.eqb config_type "json" then Some json_dump
  else None.

(** What the backup stage and the output stage of [main] can make of
    the files: the backup stage leaves them alone or writes the text of
    the configuration file to the backup path; the output stage leaves
    them alone or writes the output file. *)
Definition after_backup (a : args) (fs fs' : files) : Prop :=
  fs' = fs ∨
  (backup a = true ∧ dry_run a = false ∧
   ∃ text, fs !! config_file a = Some text ∧
           ¬ same_file fs (config_file a) (backup_path fs a) ∧
           fs' = <[backup_path fs a := text]> fs).

Definition after_output (a : args) (fs fs' : files) : Prop :=
  fs' = fs ∨
  (dry_run a = false ∧ ∃ text, fs' = <[output_file_path a := text]> fs).

(** Stand-ins for the libraries, to run the orchestration on.  The YAML
    parser knows the text ["a: 0"], the JSON parser the text of a report
    with one finding that sets ["a"] to [1]. *)
Definition toy_yaml_load (text : string) (h : heap) : heap * parsed :=
  if String.eqb text "a: 0"
  then (<[100 := ODict {[ "a" := VInt 0 ]}]> h, Parsed (VRef 100))
  else (h, Rejected).

Definition toy_json_load (text : string) (h : heap) : heap * parsed :=
  if String.eqb text "report"
  then (<[103 := ODict {[ "misconfigurations" := VRef 102 ]}]>
          (<[102 := OList [VRef 101]]>
             (<[101 := ODict {[ "path" := VStr "a";
                                "suggested_value" := VInt 1 ]}]> h)),
        Parsed (VRef 103))
  else (h, Rejected).

(** A JSON parser for which every text is the report
    [{"misconfigurations": 3}]. *)
Definition count_json_load (text : string) (h : heap) : heap * parsed :=
  (<[103 := ODict {[ "misconfigurations" := VInt 3 ]}]> h, Parsed (VRef 103)).

Definition toy_dump (h : heap) (v : value) : string * bool :=
  match node_at h v ["a"] with
  | Some (VInt 1) => ("a: 1", true)
  | Some _ => ("a: 0", true)
  | None => ("{", false)
  end.

Definition toy_key_order (d : gmap string value) : list string :=
  (map_to_list d).*1.

Definition toy_world : world :=
  World (plain {[ "config.yaml" := "a: 0"; "report.json" := "report" ]}) ∅ [] [].

(** The same files where [config.yaml.bak] is a directory, and where
    [./config.yaml.bak] is known to be another name of
    [config.yaml.bak]. *)
Definition directory_world : world :=
  World (Files (λ p, p)
               (λ _ dst, if String.eqb dst "config.yaml.bak"
                         then "config.yaml.bak/config.yaml" else dst)
               {[ "config.yaml" := "a: 0"; "report.json" := "report" ]})
        ∅ [] [].

Definition dotted_world : world :=
  World (Files (λ p, if String.eqb p "./config.yaml.bak"
                     then "config.yaml.bak" else p)
               (λ _ dst, dst)
               {[ "config.yaml" := "a: 0"; "report.json" := "report" ]})
        ∅ [] [].

Definition toy_args (dry backup : bool) : args :=
  Args "config.yaml" "report.json" None dry backup.

(** A computation that leaves the files and the standard output alone. *)
Definition keeps {A} (m : W A) : Prop :=
  ∀ w, w_fs (m w).1 = w_fs w ∧ w_out (m w).1 = w_out w.

(** A computation that never fails with the error of [write_config]. *)
Definition no_write_error {A} (m : W A) : Prop :=
  ∀ w c, (m w).2 ≠ Fail (ErrorWriting c).

(** [main] and its parts on the stand-in libraries, every path writable. *)
Definition toy_main (a : args) (w : world) : world * status :=
  main toy_yaml_load toy_json_load toy_dump toy_dump (λ _, true) toy_key_order a w.

Definition toy_write_config (config : value) (output_file config_type : string) :
    W unit :=
  write_config toy_dump toy_dump (λ _, true) config output_file config_type.

(** A world whose report is not JSON, and a world with a document in
    the heap: [{"a": 1}] at address 1, [{"b": 1}] at address 2. *)
Definition broken_report_world : world :=
  World (plain {[ "config.yaml" := "a: 0"; "report.json" := "{" ]}) ∅ [] [].

Definition document_world : world :=
  World (plain {[ "out.yaml" := "old" ]})
        {[ 1 := ODict {[ "a" := VInt 1 ]}; 2 := ODict {[ "b" := VInt 1 ]} ]}
        [] [].

(** A world with a document [{"a": 0}] at address 1 and three reports in
    the heap: one with a finding (address 103), an empty one (address
    104) and one whose ["misconfigurations"] is the number 3 (address
    105). *)
Definition report_world : world :=
  World (plain ∅)
    (list_to_map
       [ (1, ODict {[ "a" := VInt 0 ]});
         (101, ODict {[ "path" := VStr "a"; "suggested_value" := VInt 1 ]});
         (102, OList [VRef 101]);
         (103, ODict {[ "misconfigurations" := VRef 102 ]});
         (104, ODict ∅);
         (105, ODict {[ "misconfigurations" := VInt 3 ]}) ])
    [] [].
Lemma reader_ret {A} (x : A) : reader (ret x).
Proof. by intros σ. Qed.

Lemma reader_raise {A} (e : exn) : reader (@raise A e).
Proof. by intros σ. Qed.

Lemma reader_load a : reader (load a).
Proof. intros [h l]. unfold load, eval. simpl. by destruct (h !! a). Qed.

Lemma reader_bind {A B} (m : M A) (k : A → M B) :
  reader m → (∀ x, reader (k x)) → reader (bind m k).
Proof.
  intros Hm Hk σ. unfold eval, bind.
  rewrite (Hm σ), (Hm (State _ _)). simpl.
  destruct (eval m (st_heap σ)); [|done].
  rewrite (Hk x σ), (Hk x (State _ _)). done.
Qed.

Lemma bind_reader {A B} (m : M A) (k : A → M B) σ :
  reader m →
  bind m k σ = match eval m (st_heap σ) with
               | Ok x => k x σ
               | Raise e => (σ, Raise e)
               end.
Proof. intros Hm. unfold bind. by rewrite (Hm σ). Qed.

Lemma eval_bind {A B} (m : M A) (k : A → M B) h :
  reader m →
  eval (bind m k) h = match eval m h with
                      | Ok x => eval (k x) h
                      | Raise e => Raise e
                      end.
Proof.
  intros Hm. unfold eval at 1. rewrite bind_reader by done. simpl.
  by destruct (eval m h).
Qed.

Create HintDb reader discriminated.
#[export] Hint Resolve reader_ret reader_raise reader_load : reader.

Ltac reader_tac :=
  repeat first
    [ apply reader_ret | apply reader_raise | apply reader_load
    | apply reader_bind; [|intros ?]
    | match goal with
      | |- reader (match ?x with _ => _ end) => destruct x
      | |- reader (if ?x then _ else _) => destruct x
      end
    | solve [eauto with reader] ].

Lemma reader_truthy v : reader (truthy v).
Proof. unfold truthy. reader_tac. Qed.
#[export] Hint Resolve reader_truthy : reader.

Lemma reader_py_not v : reader (py_not v).
Proof. unfold py_not. reader_tac. Qed.

Lemma reader_py_get v key : reader (py_get v key).
Proof. unfold py_get. reader_tac. Qed.

Lemma reader_py_split v : reader (py_split v).
Proof. unfold py_split. reader_tac. Qed.

Lemma reader_py_contains key v : reader (py_contains key v).
Proof. unfold py_contains. reader_tac. Qed.

Lemma reader_py_getitem v key : reader (py_getitem v key).
Proof. unfold py_getitem. reader_tac. Qed.

Lemma reader_py_format v : reader (py_format v).
Proof.
  intros [h l]. unfold py_format, eval. simpl. by destruct (printable h v).
Qed.
#[export] Hint Resolve reader_py_not reader_py_get reader_py_split
  reader_py_contains reader_py_getitem reader_py_format : reader.

Lemma eval_py_format h v :
  eval (py_format v) h = if printable h v then Ok tt else Raise ValueError.
Proof. unfold eval, py_format. simpl. by destruct (printable h v). Qed.

Lemma reader_descend init : ∀ current, reader (descend current init).
Proof. induction init as [|part init IH]; intros current; simpl; reader_tac. Qed.
#[export] Hint Resolve reader_descend : reader.

(** ** Inversion of the primitives *)

Ltac mstep := rewrite ?bind_reader, ?eval_bind by eauto with reader.

Lemma eval_py_get_dict h f d key :
  h !! f = Some (ODict d) →
  eval (py_get (VRef f) key) h = Ok (default VNone (d !! key)).
Proof. intros Hf. unfold eval, py_get, bind, load. simpl. by rewrite Hf. Qed.

Lemma eval_py_get_Ok h m key x :
  eval (py_get m key) h = Ok x →
  ∃ f d, m = VRef f ∧ h !! f = Some (ODict d) ∧ x = default VNone (d !! key).
Proof.
  unfold eval, py_get, bind, load. destruct m as [| | | | |f]; simpl; try done.
  destruct (h !! f) as [[l|d]|] eqn:Hf; simpl; try done.
  intros [= <-]. eauto.
Qed.

Lemma eval_py_split_Ok h v parts :
  eval (py_split v) h = Ok parts → ∃ p, v = VStr p ∧ parts = split dot p.
Proof. destruct v; try done. intros [= <-]. eauto. Qed.

Lemma eval_py_contains_dict h a d key :
  h !! a = Some (ODict d) →
  eval (py_contains key (VRef a)) h = Ok (bool_decide (is_Some (d !! key))).
Proof. intros Ha. unfold eval, py_contains, bind, load. simpl. by rewrite Ha. Qed.

Lemma eval_py_getitem_dict h a d key :
  h !! a = Some (ODict d) →
  eval (py_getitem (VRef a) key) h =
    match d !! key with Some x => Ok x | None => Raise KeyError end.
Proof.
  intros Ha. unfold eval, py_getitem, bind, load. simpl. rewrite Ha.
  by destruct (d !! key).
Qed.

Lemma eval_py_getitem_Ok h v key x :
  eval (py_getitem v key) h = Ok x →
  ∃ a d, v = VRef a ∧ h !! a = Some (ODict d) ∧ d !! key = Some x.
Proof.
  unfold eval, py_getitem, bind, load. destruct v as [| | | | |a]; simpl; try done.
  destruct (h !! a) as [[l|d]|] eqn:Ha; simpl; try done.
  destruct (d !! key) eqn:Hk; simpl; [|done]. intros [= <-]. eauto.
Qed.

Lemma py_setitem_dict h l a d key x :
  h !! a = Some (ODict d) →
  py_setitem (VRef a) key x (State h l) = (State (rebind a d key x h) l, Ok tt).
Proof. intros Ha. unfold py_setitem, bind, load, store. simpl. by rewrite Ha. Qed.

(** The loop reaches [Some current] exactly along a chain of dictionaries. *)
Lemma descend_Some_node_at h init : ∀ v current,
  eval (descend v init) h = Ok (Some current) → node_at h v init = Some current.
Proof.
  induction init as [|part init IH]; intros v current; simpl.
  - by intros [= <-].
  - mstep. destruct (eval (py_contains part v) h) as [[]|] eqn:Hc; try done.
    mstep. destruct (eval (py_getitem v part) h) as [next|] eqn:Hg; try done.
    apply eval_py_getitem_Ok in Hg as (a & d & -> & Ha & Hk).
    rewrite Ha, Hk. apply IH.
Qed.

Lemma node_at_descend h init : ∀ v current,
  node_at h v init = Some current → eval (descend v init) h = Ok (Some current).
Proof.
  induction init as [|part init IH]; intros v current; simpl.
  - by intros [= <-].
  - destruct v as [| | | | |a]; try done.
    destruct (h !! a) as [[l|d]|] eqn:Ha; try done.
    destruct (d !! part) as [next|] eqn:Hk; try done.
    intros Hn. mstep. rewrite (eval_py_contains_dict _ _ _ _ Ha), Hk.
    rewrite bool_decide_true by eauto. mstep.
    rewrite (eval_py_getitem_dict _ _ _ _ Ha), Hk. by apply IH.
Qed.

Lemma node_at_app h pre post : ∀ v,
  node_at h v (pre ++ post) = node_at h v pre ≫= λ w, node_at h w post.
Proof.
  induction pre as [|key pre IH]; intros v; simpl; [done|].
  destruct v as [| | | | |a]; try done.
  destruct (h !! a) as [[l|d]|]; try done.
  destruct (d !! key); [apply IH|done].
Qed.

Lemma descend_app h pre : ∀ v w post,
  node_at h v pre = Some w →
  eval (descend v (pre ++ post)) h = eval (descend w post) h.
Proof.
  induction pre as [|key pre IH]; intros v w post; simpl.
  - by intros [= <-].
  - destruct v as [| | | | |a]; try done.
    destruct (h !! a) as [[l|d]|] eqn:Ha; try done.
    destruct (d !! key) as [next|] eqn:Hk; try done.
    intros Hn. mstep. rewrite (eval_py_contains_dict _ _ _ _ Ha), Hk.
    rewrite bool_decide_true by eauto. mstep.
    rewrite (eval_py_getitem_dict _ _ _ _ Ha), Hk. by apply IH.
Qed.

(** ** The code performs its plan *)

Lemma plan_slot_run h l path sv current last_part :
  (let* found := py_contains last_part current in
   if found then
     let* old := py_getitem current last_part in
     let* _ := py_format old in
     let* _ := py_format sv in
     let* _ := logging (Changing path old sv) in
     py_setitem current last_part sv
   else logging (PathNotFound path)) (State h l) =
  match plan_slot h path sv current last_part with
  | PRaise e => (State h l, Raise e)
  | PLog r => (State h (l ++ [r]), Ok tt)
  | PSet p a d k old new =>
      (State (rebind a d k new h) (l ++ [Changing p old new]), Ok tt)
  end.
Proof.
  unfold plan_slot. mstep. simpl.
  destruct (eval (py_contains last_part current) h) as [[]|]; try done.
  mstep. simpl.
  destruct (eval (py_getitem current last_part) h) as [old|] eqn:Hg; try done.
  mstep. simpl. rewrite eval_py_format.
  destruct (printable h old); [|done]. mstep. simpl. rewrite eval_py_format.
  destruct (printable h sv); [|done]. cbn [andb].
  apply eval_py_getitem_Ok in Hg as (a & d & -> & Ha & Hk). rewrite Ha.
  unfold bind at 1, logging. cbn [st_heap st_log].
  by rewrite (py_setitem_dict _ _ _ _ _ _ Ha).
Qed.

Lemma remediate_body_plan config m h l :
  remediate_body config m (State h l) =
  match plan_of h config m with
  | PRaise e => (State h l, Raise e)
  | PLog r => (State h (l ++ [r]), Ok tt)
  | PSet p a d k old new =>
      (State (rebind a d k new h) (l ++ [Changing p old new]), Ok tt)
  end.
Proof.
  unfold remediate_body, plan_of, plan_skip, plan_path. mstep. simpl.
  destruct (eval (py_get m "path") h) as [path|]; try done.
  mstep. simpl.
  destruct (eval (py_get m "suggested_value") h) as [sv|]; try done.
  mstep. simpl.
  destruct (eval (py_not path) h) as [no_path|]; try done.
  destruct no_path.
  - unfold bind, ret. done.
  - mstep. simpl. destruct (eval (py_not sv) h) as [[]|]; try done.
    mstep. simpl. destruct (eval (py_split path) h) as [parts|]; try done.
    mstep. simpl.
    destruct (eval (descend config (removelast parts)) h) as [[current|]|];
      try done.
    apply plan_slot_run.
Qed.

Theorem remediate_misconfiguration_plan config m σ :
  remediate_misconfiguration config m σ =
    (perform m (plan_of (st_heap σ) config m) σ, Ok config).
Proof.
  destruct σ as [h l]. unfold remediate_misconfiguration, bind at 1 2.
  unfold try_except, logging at 1. simpl.
  rewrite remediate_body_plan.
  destruct (plan_of h config m); simpl; unfold ret;
    rewrite <- ?(assoc_L (++)); done.
Qed.

(** ** The loops *)

Lemma remediate_each_pass F : ∀ config σ,
  remediate_each config F σ = (pass config F σ, Ok config).
Proof.
  induction F as [|m F IH]; intros config σ; simpl; [done|].
  unfold bind. rewrite remediate_misconfiguration_plan. apply IH.
Qed.

Lemma remediate_all_pass config F σ :
  remediate_all config F σ =
    (match F with
     | [] => State (st_heap σ) (st_log σ ++ [NoMisconfigurations])
     | _ => pass config F σ
     end, Ok config).
Proof. destruct F; [done|]. apply remediate_each_pass. Qed.


Lemma step_log config σ m :
  st_log (step config σ m) =
    st_log σ ++ [Attempting m; record_of (plan_of (st_heap σ) config m)].
Proof. unfold step. by destruct (plan_of _ _ _). Qed.

(** ** What the plan says about the input *)

Lemma plan_record_outcome h config m :
  is_Some (outcome_of (record_of (plan_of h config m))).
Proof.
  unfold plan_of, plan_path, plan_slot.
  repeat (case_match; simpl; eauto).
Qed.


Lemma eval_py_not_truthy h v : is_truthy h v → eval (py_not v) h = Ok false.
Proof.
  unfold is_truthy, py_not. intros Hv. mstep. by rewrite Hv.
Qed.


Lemma plan_accepted h config m p sv :
  accepted h m p sv → plan_of h config m = plan_path h config (VStr p) sv.
Proof.
  intros [(f & d & -> & Hf & Hp & Hsv) Hskip]. unfold plan_of.
  by rewrite !(eval_py_get_dict _ _ _ _ Hf), Hp, Hsv, Hskip.
Qed.

Lemma plan_falsy h config m path sv :
  finding h m path sv → eval (truthy sv) h = Ok false →
  (∃ e, plan_of h config m = PRaise e) ∨ plan_of h config m = PLog MissingFields.
Proof.
  intros (f & d & -> & Hf & Hp & Hsv) Ht. unfold plan_of, plan_skip.
  rewrite !(eval_py_get_dict _ _ _ _ Hf), Hp, Hsv.
  destruct (eval (py_not path) h) as [[]|]; eauto.
  unfold py_not. mstep. rewrite Ht. simpl. eauto.
Qed.

Lemma plan_path_str h config p sv :
  plan_path h config (VStr p) sv =
    match eval (descend config (removelast (split dot p))) h with
    | Raise e => PRaise e
    | Ok None => PLog (PathNotFound (VStr p))
    | Ok (Some current) =>
        plan_slot h (VStr p) sv current (List.last (split dot p) "")
    end.
Proof. done. Qed.

Lemma plan_slot_dict h path sv a d key :
  h !! a = Some (ODict d) →
  plan_slot h path sv (VRef a) key =
    match d !! key with
    | Some old =>
        if printable h old && printable h sv then PSet path a d key old sv
        else PRaise ValueError
    | None => PLog (PathNotFound path)
    end.
Proof.
  intros Ha. unfold plan_slot.
  rewrite (eval_py_contains_dict _ _ _ _ Ha), (eval_py_getitem_dict _ _ _ _ Ha), Ha.
  destruct (d !! key) eqn:Hk.
  - by rewrite bool_decide_true by eauto.
  - rewrite bool_decide_false; [done|]. by intros [? ?].
Qed.

Lemma plan_of_PSet_inv h config m path a d k old new :
  plan_of h config m = PSet path a d k old new →
  ∃ p, path = VStr p ∧ finding h m (VStr p) new ∧
       node_at h config (removelast (split dot p)) = Some (VRef a) ∧
       k = List.last (split dot p) "" ∧
       h !! a = Some (ODict d) ∧ d !! k = Some old.
Proof.
  unfold plan_of.
  destruct (eval (py_get m "path") h) as [path'|] eqn:Hp; [|done].
  destruct (eval (py_get m "suggested_value") h) as [sv|] eqn:Hs; [|done].
  destruct (plan_skip h path' sv) as [[]|]; try done.
  unfold plan_path.
  destruct (eval (py_split path') h) as [parts|] eqn:Hsp; [|done].
  apply eval_py_split_Ok in Hsp as (p & -> & ->).
  destruct (eval (descend config _) h) as [[current|]|] eqn:Hd; try done.
  apply descend_Some_node_at in Hd. unfold plan_slot.
  destruct (eval (py_contains _ current) h) as [[]|]; try done.
  destruct (eval (py_getitem current _) h) as [old'|] eqn:Hg; [|done].
  destruct (printable h old' && printable h sv); [|done].
  apply eval_py_getitem_Ok in Hg as (a' & d' & -> & Ha & Hk). rewrite Ha.
  intros [= <- <- <- <- <- <-]. exists p. split_and!; try done.
  apply eval_py_get_Ok in Hp as (f & df & -> & Hf & Hp).
  apply eval_py_get_Ok in Hs as (f' & df' & [= <-] & Hf' & Hs).
  rewrite Hf in Hf'. injection Hf' as <-. by exists f, df.
Qed.


Lemma key_missing_plan h config p sv :
  key_missing h config (split dot p) →
  plan_path h config (VStr p) sv = PLog (PathNotFound (VStr p)).
Proof.
  intros (pre & key & post & a & d & Hparts & Hn & Ha & Hk).
  rewrite plan_path_str, Hparts.
  destruct post as [|key' post].
  - rewrite removelast_last, last_last.
    rewrite (node_at_descend _ _ _ _ Hn).
    by rewrite (plan_slot_dict _ _ _ _ _ _ Ha), Hk.
  - replace (removelast (pre ++ key :: key' :: post))
      with (pre ++ key :: removelast (key' :: post)).
    2:{ rewrite removelast_app by done. done. }
    rewrite (descend_app _ _ _ _ _ Hn). cbn [descend]. mstep.
    rewrite (eval_py_contains_dict _ _ _ _ Ha), Hk.
    rewrite bool_decide_false; [done|]. by intros [? ?].
Qed.

Lemma outcomes_app l1 l2 : outcomes (l1 ++ l2) = outcomes l1 ++ outcomes l2.
Proof. apply omap_app. Qed.

Lemma pass_log config F : ∀ σ,
  ∃ rs, length rs = length F ∧
        Forall (λ r, is_Some (outcome_of r)) rs ∧
        st_log (pass config F σ) =
          st_log σ ++ mjoin (zip_with (λ m r, [Attempting m; r]) F rs).
Proof.
  induction F as [|m F IH]; intros σ.
  - exists []. simpl. by rewrite app_nil_r.
  - destruct (IH (step config σ m)) as (rs & Hlen & Hrs & Hlog).
    exists (record_of (plan_of (st_heap σ) config m) :: rs). split_and!.
    + simpl. by rewrite Hlen.
    + constructor; [apply plan_record_outcome|done].
    + unfold pass in *. simpl. rewrite Hlog, step_log.
      by rewrite <- (assoc_L (++)).
Qed.

Lemma outcomes_interleave F : ∀ rs,
  length rs = length F →
  Forall (λ r, is_Some (outcome_of r)) rs →
  ∃ os, outcomes (mjoin (zip_with (λ m r, [Attempting m; r]) F rs)) = os ∧
        length os = length F ∧ Forall2 (λ r o, outcome_of r = Some o) rs os.
Proof.
  induction F as [|m F IH]; intros [|r rs] Hlen Hrs; simplify_eq/=.
  - exists []. by split_and!.
  - apply Forall_cons in Hrs as [[o Ho] Hrs].
    destruct (IH rs) as (os & Hos & Hl & Hall); [done..|].
    exists (o :: os). unfold outcomes in *. simpl. rewrite Ho, Hos. simpl.
    split_and!; [done|by rewrite Hl|by constructor].
Qed.

(** ** The claims *)

(** C4. Failure isolation: whatever the document and the findings, the
    pass over the findings runs to its end and returns normally; every
    finding, in the order of the list, leaves its [Attempting] record
    followed by exactly one outcome record, so the outcomes are as many
    as the findings and in the same order. *)
Theorem failure_isolation config F σ :
  ∃ σ' rs os,
    remediate_all config F σ = (σ', Ok config) ∧
    length rs = length F ∧
    Forall2 (λ r o, outcome_of r = Some o) rs os ∧
    st_log σ' = st_log σ ++
      match F with
      | [] => [NoMisconfigurations]
      | _ => mjoin (zip_with (λ m r, [Attempting m; r]) F rs)
      end ∧
    outcomes (st_log σ') = outcomes (st_log σ) ++ os ∧
    length os = length F.
Proof.
  rewrite remediate_all_pass.
  destruct (pass_log config F σ) as (rs & Hlen & Hrs & Hlog).
  destruct (outcomes_interleave F rs Hlen Hrs) as (os & Hos & Hl & Hall).
  eexists _, rs, os. split; [done|]. split_and!; try done.
  - destruct F; [|done]. by destruct rs.
  - destruct F as [|m F].
    + destruct rs; [|done]. simpl in *. subst os.
      by rewrite outcomes_app.
    + by rewrite Hlog, outcomes_app, Hos.
Qed.

(** C8. An empty finding list is a no-op and not an error: the call
    returns normally with the same document, the heap is untouched and
    no outcome is produced. *)
Theorem empty_findings_noop config σ :
  ∃ σ', remediate_all config [] σ = (σ', Ok config) ∧
        st_heap σ' = st_heap σ ∧
        outcomes (st_log σ') = outcomes (st_log σ).
Proof.
  eexists. split; [reflexivity|]. simpl. split; [done|].
  by rewrite outcomes_app, app_nil_r.
Qed.

(** The primitives on small inputs. *)
Example split_dotted : split dot "a.b.c" = ["a"; "b"; "c"].
Proof. reflexivity. Qed.

Example split_empty_segments : split dot "a..b." = ["a"; ""; "b"; ""].
Proof. reflexivity. Qed.

Example split_no_dot : split dot "debug" = ["debug"].
Proof. reflexivity. Qed.

Example substring_inside : is_substring "b" "xbx" = true.
Proof. reflexivity. Qed.

Example substring_absent : is_substring "q" "xbx" = false.
Proof. reflexivity. Qed.

Example substring_empty : is_substring "" "xbx" = true.
Proof. reflexivity. Qed.

(** The scenarios of the specification that the code reproduces. *)
Example scenario_applied :
  remediate_misconfiguration (VRef 1) (VRef 10) (State scenario_heap []) =
    (State (<[3 := ODict {[ "minimum_length" := VInt 12 ]}]> scenario_heap)
           [Attempting (VRef 10);
            Changing (VStr "security.password_policy.minimum_length")
                     (VInt 4) (VInt 12)],
     Ok (VRef 1)).
Proof. vm_compute. reflexivity. Qed.

Example scenario_leaf_missing :
  remediate_misconfiguration (VRef 1) (VRef 11) (State scenario_heap []) =
    (State scenario_heap
           [Attempting (VRef 11);
            PathNotFound (VStr "security.password_policy.max_age")],
     Ok (VRef 1)).
Proof. vm_compute. reflexivity. Qed.

Example scenario_missing_suggested_value :
  remediate_misconfiguration (VRef 1) (VRef 14) (State scenario_heap []) =
    (State scenario_heap [Attempting (VRef 14); MissingFields], Ok (VRef 1)).
Proof. vm_compute. reflexivity. Qed.

(** C1. The code at the finding
    [{"path": "network.firewall.rules", "suggested_value": []}] on a
    document without a [network] key: the empty list is false in the
    condition of line 95, so the finding is reported as missing its
    fields and the path is never looked at. *)
Theorem empty_list_suggestion_reported_missing :
  finding scenario_heap (VRef 12) (VStr "network.firewall.rules") (VRef 13) ∧
  scenario_heap !! 13 = Some (OList []) ∧
  node_at scenario_heap (VRef 1) ["network"] = None ∧
  remediate_misconfiguration (VRef 1) (VRef 12) (State scenario_heap []) =
    (State scenario_heap [Attempting (VRef 12); MissingFields], Ok (VRef 1)) ∧
  outcomes (st_log (remediate_misconfiguration (VRef 1) (VRef 12)
                      (State scenario_heap [])).1) = [SkippedMissingFields].
Proof.
  split_and!; try (vm_compute; reflexivity).
  eexists 12, _. split_and!; try reflexivity; vm_compute; reflexivity.
Qed.

(** Every present but false [suggested_value] ([0], [False], the empty
    string, list or dictionary) sends the finding the same way. *)
Lemma falsy_suggested_value_skipped config m σ p sv :
  finding (st_heap σ) m (VStr p) sv →
  eval (truthy sv) (st_heap σ) = Ok false →
  remediate_misconfiguration config m σ =
    (State (st_heap σ) (st_log σ ++ [Attempting m; MissingFields]), Ok config).
Proof.
  intros Hf Ht. rewrite remediate_misconfiguration_plan.
  destruct Hf as (f & d & -> & Hf & Hp & Hsv).
  unfold plan_of, plan_skip.
  rewrite !(eval_py_get_dict _ _ _ _ Hf), Hp, Hsv.
  unfold py_not at 1. mstep. simpl.
  destruct (negb (p =? ""))%string; simpl; [|done].
  unfold py_not. mstep. by rewrite Ht.
Qed.

Lemma split_acc_nonempty sep s : ∀ acc, split_acc sep acc s ≠ [].
Proof. induction s as [|c s IH]; intros acc; simpl; [done|]. by case_match. Qed.

Lemma split_nonempty sep s : split sep s ≠ [].
Proof. apply split_acc_nonempty. Qed.



(** C5. The code at the document [{"debug": true, ...}] and the finding
    [{"path": "debug", "suggested_value": false}]: the path resolves to
    an existing leaf, yet the leaf keeps its value and the finding is
    reported as missing its fields, because [False] fails the condition
    of line 95. *)
Theorem false_suggestion_not_applied :
  finding scenario_heap (VRef 15) (VStr "debug") (VBool false) ∧
  node_at scenario_heap (VRef 1) (split dot "debug") = Some (VBool true) ∧
  remediate_misconfiguration (VRef 1) (VRef 15) (State scenario_heap []) =
    (State scenario_heap [Attempting (VRef 15); MissingFields], Ok (VRef 1)).
Proof.
  split_and!; try (vm_compute; reflexivity).
  eexists 15, _. split_and!; try reflexivity; vm_compute; reflexivity.
Qed.

Lemma last_two {A} (l : list A) x y : last (l ++ [x; y]) = Some y.
Proof.
  change (l ++ [x; y]) with (l ++ [x] ++ [y]).
  by rewrite (assoc_L (++)), last_snoc.
Qed.

(** C9. Totality and atomicity of one call: for every document, finding
    and state the call returns normally, with the document reference it
    was given; the heap it leaves is either the heap it found or that
    heap with one existing key of one dictionary rebound; and when the
    call ended in the [except] branch the heap is the one it found. *)
Theorem remediate_total_atomic config m σ :
  ∃ σ', remediate_misconfiguration config m σ = (σ', Ok config) ∧
    (st_heap σ' = st_heap σ ∨
     ∃ a d k old new,
       st_heap σ !! a = Some (ODict d) ∧ d !! k = Some old ∧
       st_heap σ' = rebind a d k new (st_heap σ)) ∧
    (∀ e, last (st_log σ') = Some (ErrorRemediating e) →
          st_heap σ' = st_heap σ).
Proof.
  rewrite remediate_misconfiguration_plan. eexists. split; [done|].
  destruct (plan_of (st_heap σ) config m) as [e|r|path a d k old new] eqn:Hp;
    simpl; split; auto.
  - right. apply plan_of_PSet_inv in Hp as (p & -> & _ & _ & _ & Ha & Hk).
    by exists a, d, k, old, new.
  - intros e. by rewrite last_two.
Qed.

Lemma rebind_same_shape h a d k old new :
  h !! a = Some (ODict d) → d !! k = Some old →
  same_shape h (rebind a d k new h).
Proof.
  intros Ha Hk b. unfold rebind. destruct (decide (a = b)) as [<-|Hne].
  - rewrite Ha, lookup_insert_eq. rewrite dom_insert_L.
    apply elem_of_dom_2 in Hk. set_solver.
  - rewrite lookup_insert_ne by done. by destruct (h !! b) as [[]|].
Qed.

Lemma same_shape_refl h : same_shape h h.
Proof. intros a. by destruct (h !! a) as [[]|]. Qed.

(** No call ever creates or removes a container or a key. *)
Lemma remediate_same_shape config m σ :
  same_shape (st_heap σ) (st_heap (remediate_misconfiguration config m σ).1).
Proof.
  rewrite remediate_misconfiguration_plan. simpl.
  destruct (plan_of (st_heap σ) config m) as [e|r|path a d k old new] eqn:Hp;
    simpl; try apply same_shape_refl.
  apply plan_of_PSet_inv in Hp as (p & -> & _ & _ & _ & Ha & Hk).
  by eapply rebind_same_shape.
Qed.

(** C10. Frame of a successful application: when a call reports
    [Changing path old new], [path] is a string whose segments but the
    last lead, through dictionaries, to a dictionary [d] at some address
    [a] that holds the last segment; the heap after the call is the heap
    before it with that one key of [d] rebound to the finding's
    [suggested_value]; every other object and every other key of [d] is
    as before, and no container or key was created or removed. *)
Theorem applied_frame config m σ path old new :
  last (st_log (remediate_misconfiguration config m σ).1)
    = Some (Changing path old new) →
  ∃ p a d,
    let h := st_heap σ in
    let h' := st_heap (remediate_misconfiguration config m σ).1 in
    let k := List.last (split dot p) "" in
    path = VStr p ∧ finding h m path new ∧
    node_at h config (removelast (split dot p)) = Some (VRef a) ∧
    h !! a = Some (ODict d) ∧ d !! k = Some old ∧
    h' = <[a := ODict (<[k := new]> d)]> h ∧
    (∀ b, b ≠ a → h' !! b = h !! b) ∧
    (∀ k', k' ≠ k → <[k := new]> d !! k' = d !! k') ∧
    dom (<[k := new]> d) = dom d ∧
    dom h' = dom h ∧
    same_shape h h'.
Proof.
  rewrite remediate_misconfiguration_plan. cbn [fst].
  destruct (plan_of (st_heap σ) config m) as [e|r|path' a d k old' new'] eqn:Hp;
    cbn [perform st_log st_heap];
    rewrite last_two; intros [= Hr].
  { pose proof (plan_record_outcome (st_heap σ) config m) as Hs.
    rewrite Hp in Hs. simpl in Hs. subst r.
    revert Hp. unfold plan_of, plan_path, plan_slot.
    repeat (case_match; try done). }
  subst. pose proof Hp as Hp'.
  apply plan_of_PSet_inv in Hp as (p & -> & Hf & Hn & -> & Ha & Hk).
  exists p, a, d. cbn zeta. split_and!; try done.
  - intros b Hb. unfold rebind. by rewrite lookup_insert_ne.
  - intros k' Hk'. by rewrite lookup_insert_ne.
  - rewrite dom_insert_L. apply elem_of_dom_2 in Hk. set_solver.
  - unfold rebind. rewrite dom_insert_L. apply elem_of_dom_2 in Ha. set_solver.
  - by eapply rebind_same_shape.
Qed.

Lemma applied_frame_witness :
  ∃ p a d,
    let h := scenario_heap in
    let h' := st_heap (remediate_misconfiguration (VRef 1) (VRef 10)
                         (State scenario_heap [])).1 in
    let k := List.last (split dot p) "" in
    VStr "security.password_policy.minimum_length" = VStr p ∧
    finding h (VRef 10) (VStr "security.password_policy.minimum_length") (VInt 12) ∧
    node_at h (VRef 1) (removelast (split dot p)) = Some (VRef a) ∧
    h !! a = Some (ODict d) ∧ d !! k = Some (VInt 4) ∧
    h' = <[a := ODict (<[k := VInt 12]> d)]> h ∧
    (∀ b, b ≠ a → h' !! b = h !! b) ∧
    (∀ k', k' ≠ k → <[k := VInt 12]> d !! k' = d !! k') ∧
    dom (<[k := VInt 12]> d) = dom d ∧
    dom h' = dom h ∧
    same_shape h h'.
Proof.
  apply (applied_frame (VRef 1) (VRef 10) (State scenario_heap [])).
  vm_compute. reflexivity.
Defined.

(** For a finding that the guard of line 95 lets through, when some
    dictionary on the way lacks the key the path asks of it (an
    intermediate segment or the last one), the heap is unchanged and
    the finding is reported as path not found. *)
Lemma unresolved_path_skipped config m σ p sv :
  accepted (st_heap σ) m p sv →
  key_missing (st_heap σ) config (split dot p) →
  remediate_misconfiguration config m σ =
    (State (st_heap σ) (st_log σ ++ [Attempting m; PathNotFound (VStr p)]),
     Ok config).
Proof.
  intros Hacc Hk.
  rewrite remediate_misconfiguration_plan, (plan_accepted _ _ _ _ _ Hacc).
  by rewrite (key_missing_plan _ _ _ _ Hk).
Qed.

Example unresolved_path_skipped_scenario :
  remediate_misconfiguration (VRef 1) (VRef 11) (State scenario_heap []) =
    (State scenario_heap
       [Attempting (VRef 11);
        PathNotFound (VStr "security.password_policy.max_age")],
     Ok (VRef 1)).
Proof.
  apply (unresolved_path_skipped (VRef 1) (VRef 11) (State scenario_heap [])
           "security.password_policy.max_age" (VInt 90)).
  - split.
    + eexists 11, _. split_and!; try reflexivity; vm_compute; reflexivity.
    + vm_compute. reflexivity.
  - exists ["security"; "password_policy"], "max_age", [], 3. eexists.
    split_and!; vm_compute; reflexivity.
Qed.

(** C6. The code at the document
    [{"security": {"password_policy": {"minimum_length": 4}}, ...}] and
    the finding [{"path": "security.password_policy.max_age",
    "suggested_value": 0}]: both fields are present and the path does
    not resolve, the dictionary that its first two segments lead to
    having no key [max_age]; yet the finding is reported as missing its
    fields, not as path not found, because [0] is false in the
    condition of line 95.  The heap is unchanged. *)
Theorem zero_suggestion_unresolved_reported_missing :
  finding zero_suggestion_heap (VRef 21)
          (VStr "security.password_policy.max_age") (VInt 0) ∧
  key_missing zero_suggestion_heap (VRef 1)
              (split dot "security.password_policy.max_age") ∧
  remediate_misconfiguration (VRef 1) (VRef 21) (State zero_suggestion_heap []) =
    (State zero_suggestion_heap [Attempting (VRef 21); MissingFields],
     Ok (VRef 1)) ∧
  outcomes (st_log (remediate_misconfiguration (VRef 1) (VRef 21)
                      (State zero_suggestion_heap [])).1) = [SkippedMissingFields].
Proof.
  split_and!; try (vm_compute; reflexivity).
  - eexists 21, _. split_and!; try reflexivity; vm_compute; reflexivity.
  - exists ["security"; "password_policy"], "max_age", [], 3. eexists.
    split_and!; vm_compute; reflexivity.
Qed.

Lemma non_mapping_contains h key node :
  non_mapping h node →
  (lacks_segment h key node = true ∧
   eval (py_contains key node) h = Ok false) ∨
  (lacks_segment h key node = false ∧
   (eval (py_contains key node) h = Raise TypeError ∨
    (eval (py_contains key node) h = Ok true ∧
     eval (py_getitem node key) h = Raise TypeError))).
Proof.
  destruct node as [| | | |s|a]; simpl; auto.
  - intros _. unfold eval. simpl. destruct (is_substring key s); auto.
  - intros [l Hl]. rewrite Hl. unfold eval, py_contains, py_getitem, bind, load.
    simpl. rewrite Hl. simpl. destruct (existsb (eq_str key) l); auto.
Qed.

(** C3, as stated, fails at the document whose [name] is the string
    ["xbx"] and the finding [{"path": "name.b", "suggested_value": 1}]:
    ["b" in "xbx"] is true, indexing the string with ["b"] raises
    [TypeError], and the call ends in the [except] branch. *)
Lemma non_mapping_skipped_counterexample :
  ¬ non_mapping_skipped scenario_heap (VRef 1) (VRef 18).
Proof.
  intros H.
  specialize (H "name.b" (VInt 1) ["name"] "b" [] (VStr "xbx")).
  assert (finding scenario_heap (VRef 18) (VStr "name.b") (VInt 1)) as Hf.
  { eexists 18, _. split_and!; try reflexivity; vm_compute; reflexivity. }
  specialize (H Hf). vm_compute in H.
  specialize (H eq_refl eq_refl I). discriminate H.
Qed.

(** The same happens on a number and on a sequence that holds the
    segment. *)
Example number_node_errors :
  remediate_misconfiguration (VRef 1) (VRef 17) (State scenario_heap []) =
    (State scenario_heap [Attempting (VRef 17); ErrorRemediating TypeError],
     Ok (VRef 1)).
Proof. vm_compute. reflexivity. Qed.

Example sequence_node_errors :
  remediate_misconfiguration (VRef 1) (VRef 19) (State scenario_heap []) =
    (State scenario_heap [Attempting (VRef 19); ErrorRemediating TypeError],
     Ok (VRef 1)).
Proof. vm_compute. reflexivity. Qed.

Example string_node_without_segment :
  remediate_misconfiguration (VRef 1) (VRef 20) (State scenario_heap []) =
    (State scenario_heap [Attempting (VRef 20); PathNotFound (VStr "name.q.r")],
     Ok (VRef 1)).
Proof. vm_compute. reflexivity. Qed.

(** C3, amended. For a finding that the guard of line 95 lets through,
    when the segments before [key] lead to a scalar or a sequence, the
    heap is unchanged; the finding is reported as path not found when
    the node is a string without [key] as a substring or a sequence
    without the string [key] among its elements, and otherwise the call
    ends in the [except] branch with a [TypeError]. *)
Theorem non_mapping_node_skipped config m σ p sv pre key post node :
  accepted (st_heap σ) m p sv →
  split dot p = pre ++ key :: post →
  node_at (st_heap σ) config pre = Some node →
  non_mapping (st_heap σ) node →
  remediate_misconfiguration config m σ =
    (State (st_heap σ)
       (st_log σ ++
        [Attempting m;
         if lacks_segment (st_heap σ) key node then PathNotFound (VStr p)
         else ErrorRemediating TypeError]),
     Ok config).
Proof.
  intros Hacc Hparts Hn Hnm.
  rewrite remediate_misconfiguration_plan, (plan_accepted _ _ _ _ _ Hacc).
  rewrite plan_path_str, Hparts.
  pose proof (non_mapping_contains (st_heap σ) key node Hnm) as Hc.
  destruct post as [|key' post].
  - rewrite removelast_last, last_last, (node_at_descend _ _ _ _ Hn).
    unfold plan_slot.
    destruct Hc as [[-> ->]|[-> [->|[-> ->]]]]; done.
  - replace (removelast (pre ++ key :: key' :: post))
      with (pre ++ key :: removelast (key' :: post)).
    2:{ rewrite removelast_app by done. done. }
    rewrite (descend_app _ _ _ _ _ Hn). cbn [descend]. mstep.
    destruct Hc as [[-> ->]|[-> [->|[-> Hg]]]]; try done.
    mstep. by rewrite Hg.
Qed.

Lemma non_mapping_node_skipped_witness :
  remediate_misconfiguration (VRef 1) (VRef 18) (State scenario_heap []) =
    (State scenario_heap
       ([] ++ [Attempting (VRef 18);
               if lacks_segment scenario_heap "b" (VStr "xbx")
               then PathNotFound (VStr "name.b")
               else ErrorRemediating TypeError]),
     Ok (VRef 1)).
Proof.
  apply (non_mapping_node_skipped (VRef 1) (VRef 18) (State scenario_heap [])
           "name.b" (VInt 1) ["name"] "b" [] (VStr "xbx")).
  - split.
    + eexists 18, _. split_and!; try reflexivity; vm_compute; reflexivity.
    + vm_compute. reflexivity.
  - vm_compute. reflexivity.
  - vm_compute. reflexivity.
  - exact I.
Defined.

(** C7. [load_config] on a file that exists: if the YAML parser accepts
    the text, the result is its document tagged ["yaml"], whatever the
    JSON parser would say; unless the YAML parser rejects the text the
    JSON parser has no influence on the result; a result tagged
    ["json"] comes from the JSON parser after a YAML rejection; and
    the call fails with the not-valid-YAML-or-JSON error exactly when
    both parsers reject the text. *)
Theorem load_config_order read_file yaml json file text σ :
  read_file file = Some text →
  (∀ h v, yaml text (st_heap σ) = (h, Parsed v) →
     load_config read_file yaml json file σ =
       (State h (st_log σ), Ok (v, "yaml"))) ∧
  (∀ json', (yaml text (st_heap σ)).2 ≠ Rejected →
     load_config read_file yaml json' file σ =
     load_config read_file yaml json file σ) ∧
  (∀ σ' v, load_config read_file yaml json file σ = (σ', Ok (v, "json")) →
     ∃ h, yaml text (st_heap σ) = (h, Rejected) ∧
          json text h = (st_heap σ', Parsed v)) ∧
  (∀ σ', load_config read_file yaml json file σ =
           (σ', Raise (ErrorLoading NotValidYamlOrJson)) ↔
         ∃ h, yaml text (st_heap σ) = (h, Rejected) ∧
              json text h = (st_heap σ', Rejected) ∧ st_log σ' = st_log σ).
Proof.
  intros Hfile. unfold load_config, try_except, call_parser, bind, ret, raise.
  rewrite Hfile. destruct σ as [h0 l0]. cbn [st_heap st_log].
  destruct (yaml text h0) as [h1 [v1| |]] eqn:Hy; cbn [fst snd st_heap st_log].
  - split_and!.
    + by intros h v [= <- <-].
    + done.
    + intros σ' v [=].
    + intros σ'. split; [intros [=]|intros (h & [=] & _)].
  - split_and!.
    + intros h v [=].
    + intros json' Hne. done.
    + intros σ' v. destruct (json text h1) as [h2 [v2| |]] eqn:Hj;
        cbn [st_heap st_log]; intros [= <- <-]. by exists h1.
    + intros σ'. destruct (json text h1) as [h2 [v2| |]] eqn:Hj;
        cbn [st_heap st_log]; (split; [intros [= <-]|intros (h & [= <-] & Hj' & Hl)]).
      all: try (rewrite Hj in Hj'; simplify_eq/=).
      * by exists h1.
      * destruct σ'. simpl in *. by subst.
  - split_and!.
    + intros h v [=].
    + done.
    + intros σ' v [=].
    + intros σ'. split; [intros [=]|intros (h & [=] & _)].
Qed.

Lemma load_config_order_witness :
  load_config (λ _, Some "a: 1") (λ _ h, (h, Parsed (VInt 1)))
              (λ _ h, (h, Rejected)) "config.yaml" (State ∅ []) =
    (State ∅ [], Ok (VInt 1, "yaml")).
Proof.
  apply (proj1 (load_config_order (λ _, Some "a: 1")
                  (λ _ h, (h, Parsed (VInt 1))) (λ _ h, (h, Rejected))
                  "config.yaml" "a: 1" (State ∅ []) eq_refl)).
  reflexivity.
Defined.

(** ** Two passes over the same findings *)


(** The document itself can differ after the second pass.  The first
    finding fails in the first pass (["a.k"] is a number); the second
    finding stores its [suggested_value], the dictionary of address 5,
    at ["a.k"]; in the second pass the first finding reaches that very
    dictionary and changes it. *)
Example retouched_document_differs :
  let σ1 := (remediate_all (VRef 1) [VRef 3; VRef 4] (State retouched_heap [])).1 in
  let σ2 := (remediate_all (VRef 1) [VRef 3; VRef 4] (State (st_heap σ1) [])).1 in
  outcomes (st_log σ1) = [Errored TypeError; Applied (VInt 0) (VRef 5)] ∧
  outcomes (st_log σ2) = [Applied (VInt 1) (VInt 9); Applied (VRef 5) (VRef 5)] ∧
  st_heap σ1 !! 5 = Some (ODict {[ "z" := VInt 1 ]}) ∧
  st_heap σ2 !! 5 = Some (ODict {[ "z" := VInt 9 ]}).
Proof. vm_compute. split_and!; reflexivity. Qed.

(** ** What can be printed *)








Section similar.
Context (W : list (addr * string)) (h h' : heap).
Hypothesis Hsim : similar W h h'.








End similar.

Lemma similar_refl W h : similar W h h.
Proof. intros a. by destruct (h !! a) as [[]|]. Qed.


Lemma similar_rebind W h a d k v :
  h !! a = Some (ODict d) → is_Some (d !! k) → (a, k) ∈ W →
  similar W h (rebind a d k v h).
Proof.
  intros Ha Hk HW b. unfold rebind. destruct (decide (a = b)) as [<-|Hne].
  - rewrite Ha, lookup_insert_eq. split.
    + rewrite dom_insert_L. apply elem_of_dom in Hk. set_solver.
    + intros k' Hk'. rewrite lookup_insert_ne; [done|]. by intros ->.
  - rewrite lookup_insert_ne by done. apply similar_refl.
Qed.








Section two_passes.
Context (h0 : heap) (config : value) (F0 : list value).
Hypothesis Hind : independent h0 config F0.

Let W := (writes h0 config F0).*1.










End two_passes.




(** ** Further properties of [remediate_misconfiguration] *)

(** X1. A finding that is not a dictionary (a scalar or a list taken from
    the report) has no [get] method: the call ends in the [except]
    branch with an [AttributeError] and leaves the heap alone. *)
Theorem non_dict_finding_errors config m σ :
  non_mapping (st_heap σ) m →
  remediate_misconfiguration config m σ =
    (State (st_heap σ)
           (st_log σ ++ [Attempting m; ErrorRemediating AttributeError]),
     Ok config).
Proof.
  intros Hm. rewrite remediate_misconfiguration_plan.
  assert (plan_of (st_heap σ) config m = PRaise AttributeError) as ->; [|done].
  unfold plan_of. destruct m as [| | | | |a]; try done.
  destruct Hm as [l Hl]. unfold eval, py_get, bind, load. simpl. by rewrite Hl.
Qed.

Lemma non_dict_finding_errors_witness :
  remediate_misconfiguration (VRef 1) (VStr "path") (State scenario_heap []) =
    (State scenario_heap
           ([] ++ [Attempting (VStr "path"); ErrorRemediating AttributeError]),
     Ok (VRef 1)).
Proof.
  apply (non_dict_finding_errors (VRef 1) (VStr "path") (State scenario_heap [])).
  exact I.
Defined.

(** X2. The guard of line 95, for a finding whose two fields have a
    truth value: the call reports missing fields exactly when [path] or
    [suggested_value] is false in a condition ([None] for an absent key,
    [False], zero, an empty string, list or dictionary), and then the
    heap is unchanged. *)
Theorem missing_fields_iff config m σ path sv bp bs :
  finding (st_heap σ) m path sv →
  eval (truthy path) (st_heap σ) = Ok bp →
  eval (truthy sv) (st_heap σ) = Ok bs →
  (closing_record config m σ = Some MissingFields ↔ bp = false ∨ bs = false) ∧
  (closing_record config m σ = Some MissingFields →
   heap_after config m σ = st_heap σ).
Proof.
  intros (f & d & -> & Hf & Hp & Hsv) Hbp Hbs.
  unfold closing_record, heap_after.
  rewrite remediate_misconfiguration_plan. cbn [fst].
  assert (plan_of (st_heap σ) config (VRef f) =
          if negb bp || negb bs then PLog MissingFields
          else plan_path (st_heap σ) config path sv) as Hplan.
  { unfold plan_of, plan_skip.
    rewrite !(eval_py_get_dict _ _ _ _ Hf), Hp, Hsv.
    unfold py_not. mstep. rewrite Hbp. simpl.
    destruct bp; simpl; [|done]. mstep. rewrite Hbs. simpl. by destruct bs. }
  rewrite Hplan. destruct (negb bp || negb bs) eqn:Hb.
  - simpl. rewrite last_two. split; [|done]. split; [|done].
    intros _. destruct bp, bs; auto; done.
  - apply orb_false_elim in Hb as [Hb1 Hb2].
    apply negb_false_iff in Hb1, Hb2. subst bp bs.
    assert (∀ pl, pl = plan_path (st_heap σ) config path sv →
                  record_of pl ≠ MissingFields) as Hne.
    { intros pl ->. unfold plan_path, plan_slot.
      repeat (case_match; try done). }
    specialize (Hne _ eq_refl).
    destruct (plan_path (st_heap σ) config path sv); simpl in *;
      rewrite last_two; (split; [split|]); try congruence;
      try (by intros [|]).
Qed.

Lemma missing_fields_iff_witness :
  (closing_record (VRef 1) (VRef 15) (State scenario_heap [])
     = Some MissingFields ↔ true = false ∨ false = false) ∧
  (closing_record (VRef 1) (VRef 15) (State scenario_heap [])
     = Some MissingFields →
   heap_after (VRef 1) (VRef 15) (State scenario_heap []) = scenario_heap).
Proof.
  apply (missing_fields_iff (VRef 1) (VRef 15) (State scenario_heap [])
           (VStr "debug") (VBool false) true false).
  - eexists 15, _. split_and!; try reflexivity; vm_compute; reflexivity.
  - reflexivity.
  - reflexivity.
Defined.

(** X3. A [path] that is true in a condition but is not a string (a
    number, [True], a non-empty list or dictionary) has no [split]
    method: with a true [suggested_value] the call ends in the [except]
    branch with an [AttributeError], the heap unchanged. *)
Theorem non_string_path_errors config m σ path sv :
  finding (st_heap σ) m path sv →
  is_truthy (st_heap σ) path → is_truthy (st_heap σ) sv →
  (∀ p, path ≠ VStr p) →
  remediate_misconfiguration config m σ =
    (State (st_heap σ)
           (st_log σ ++ [Attempting m; ErrorRemediating AttributeError]),
     Ok config).
Proof.
  intros (f & d & -> & Hf & Hp & Hsv) Htp Hts Hns.
  rewrite remediate_misconfiguration_plan.
  assert (plan_of (st_heap σ) config (VRef f) = PRaise AttributeError) as ->;
    [|done].
  unfold plan_of, plan_skip.
  rewrite !(eval_py_get_dict _ _ _ _ Hf), Hp, Hsv.
  rewrite !eval_py_not_truthy by done. unfold plan_path.
  destruct path; try done. by destruct (Hns s).
Qed.

Lemma non_string_path_errors_witness :
  remediate_misconfiguration (VRef 1) (VRef 10) (State extra_heap []) =
    (State extra_heap
           ([] ++ [Attempting (VRef 10); ErrorRemediating AttributeError]),
     Ok (VRef 1)).
Proof.
  apply (non_string_path_errors (VRef 1) (VRef 10) (State extra_heap [])
           (VInt 5) (VInt 1)).
  - eexists 10, _. split_and!; try reflexivity; vm_compute; reflexivity.
  - reflexivity.
  - reflexivity.
  - intros p. discriminate.
Defined.



Lemma similar_node_at W h h' keys : ∀ v,
  similar W h h' → Forall (.∉ W) (walk h v keys) →
  node_at h' v keys = node_at h v keys.
Proof.
  induction keys as [|key keys IH]; intros v Hsim Hw; [done|].
  destruct v as [| | | | |a]; try done. simpl in *.
  apply Forall_cons in Hw as [Ha Hw]. pose proof (Hsim a) as Hs.
  destruct (h !! a) as [[l|d]|], (h' !! a) as [[l'|d']|]; try done.
  destruct Hs as [Hdom Hk]. rewrite <- (Hk key Ha).
  destruct (d !! key); [by apply IH|done].
Qed.

(** A call that closes with [Changing] has carried out an assignment. *)
Lemma closing_record_Changing config m σ path old new :
  closing_record config m σ = Some (Changing path old new) →
  ∃ a d k, plan_of (st_heap σ) config m = PSet path a d k old new ∧
           heap_after config m σ = rebind a d k new (st_heap σ).
Proof.
  unfold closing_record, heap_after.
  rewrite remediate_misconfiguration_plan. cbn [fst].
  destruct (plan_of (st_heap σ) config m) as [e|r|path' a d k old' new'] eqn:Hp;
    cbn [perform st_log st_heap];
    rewrite last_two; intros [= Hr].
  - pose proof (plan_record_outcome (st_heap σ) config m) as Hs.
    rewrite Hp in Hs. simpl in Hs. subst r.
    revert Hp. unfold plan_of, plan_path, plan_slot.
    repeat (case_match; try done).
  - subst. by exists a, d, k.
Qed.

(** X5. Read after write: after a successful application (the call
    closes with the record [Changing path old new]), the same path
    resolves to the new value, provided the binding that was assigned
    is not one of the bindings the path goes through before its last
    segment (which holds in every document without a cycle through
    that dictionary). *)
Theorem applied_then_resolves config m σ p old new a :
  closing_record config m σ = Some (Changing (VStr p) old new) →
  node_at (st_heap σ) config (removelast (split dot p)) = Some (VRef a) →
  (a, List.last (split dot p) "") ∉
    walk (st_heap σ) config (removelast (split dot p)) →
  node_at (heap_after config m σ) config (split dot p) = Some new.
Proof.
  intros Hc Ha Hw.
  apply closing_record_Changing in Hc as (a' & d & k & Hp & ->).
  apply plan_of_PSet_inv in Hp as (p' & [= <-] & _ & Ha' & -> & Hd & Hk).
  rewrite Ha in Ha'. injection Ha' as <-.
  set (k := List.last (split dot p) "") in *.
  assert (similar [(a, k)] (st_heap σ) (rebind a d k new (st_heap σ))) as Hsim.
  { apply similar_rebind; [done|eauto|set_solver]. }
  rewrite (app_removelast_last "" (split_nonempty dot p)), node_at_app.
  rewrite (similar_node_at [(a, k)] (st_heap σ) _ _ _ Hsim).
  2:{ apply Forall_forall. intros s Hs ->%list_elem_of_singleton. done. }
  rewrite Ha. simpl. fold k. unfold rebind.
  by rewrite lookup_insert_eq, lookup_insert_eq.
Qed.

Lemma applied_then_resolves_witness :
  node_at (heap_after (VRef 1) (VRef 11) (State extra_heap [])) (VRef 1)
          (split dot "a.k") = Some (VInt 7).
Proof.
  apply (applied_then_resolves (VRef 1) (VRef 11) (State extra_heap [])
           "a.k" (VInt 0) (VInt 7) 2).
  - vm_compute. reflexivity.
  - vm_compute. reflexivity.
  - vm_compute. intros Hin. apply list_elem_of_singleton in Hin. discriminate Hin.
Defined.



(** *** Keys that contain a dot *)

Lemma is_substring_dot_cons c s :
  is_substring "." (String c s) = Ascii.eqb dot c || is_substring "." s.
Proof.
  cbn [is_substring String.prefix]. unfold dot.
  destruct (ascii_dec "." c) as [<-|Hne].
  - by destruct s.
  - apply Ascii.eqb_neq in Hne. by rewrite Hne.
Qed.

Lemma is_substring_dot_rev_app s : ∀ acc,
  is_substring "." (String.rev_app s acc) =
    is_substring "." s || is_substring "." acc.
Proof.
  induction s as [|c s IH]; intros acc; [done|].
  cbn [String.rev_app]. rewrite IH, !is_substring_dot_cons.
  destruct (Ascii.eqb dot c), (is_substring "." s); done.
Qed.

Lemma is_substring_dot_rev s :
  is_substring "." (String.rev s) = is_substring "." s.
Proof.
  unfold String.rev. rewrite is_substring_dot_rev_app.
  cbn [is_substring String.prefix]. by rewrite orb_false_r.
Qed.

Lemma split_acc_no_dot s : ∀ acc part,
  is_substring "." acc = false → part ∈ split_acc dot acc s →
  is_substring "." part = false.
Proof.
  induction s as [|c s IH]; intros acc part Hacc; simpl.
  - intros ->%list_elem_of_singleton. by rewrite is_substring_dot_rev.
  - destruct (Ascii.eqb c dot) eqn:Hc.
    + intros [->|Hin]%elem_of_cons.
      * by rewrite is_substring_dot_rev.
      * by apply (IH EmptyString).
    + apply IH. rewrite is_substring_dot_cons, Hacc.
      rewrite Ascii.eqb_sym, Hc. done.
Qed.

Lemma split_no_dot_parts s part :
  part ∈ split dot s → is_substring "." part = false.
Proof. by apply split_acc_no_dot. Qed.

Lemma last_elem_of {A} (l : list A) (x : A) : l ≠ [] → List.last l x ∈ l.
Proof.
  intros Hne. rewrite (app_removelast_last x Hne) at 2. set_solver.
Qed.

(** X6. A key that contains a dot cannot be addressed: whatever the
    finding, no call changes the value bound to such a key in any
    dictionary of the heap. *)
Theorem dotted_key_never_rebound config m σ a d k :
  st_heap σ !! a = Some (ODict d) →
  is_substring "." k = true →
  ∃ d', heap_after config m σ !! a = Some (ODict d') ∧ d' !! k = d !! k.
Proof.
  intros Ha Hk. unfold heap_after.
  rewrite remediate_misconfiguration_plan. cbn [fst].
  destruct (plan_of (st_heap σ) config m) as [e|r|path a0 d0 k0 old new] eqn:Hp;
    simpl; eauto.
  apply plan_of_PSet_inv in Hp as (p & -> & Hf & Hn & -> & Ha0 & Hk0).
  unfold rebind. destruct (decide (a0 = a)) as [->|Hne].
  - rewrite lookup_insert_eq. eexists. split; [done|].
    rewrite Ha in Ha0. injection Ha0 as <-.
    rewrite lookup_insert_ne; [done|]. intros <-.
    rewrite (split_no_dot_parts p) in Hk; [done|].
    apply last_elem_of, split_nonempty.
  - rewrite lookup_insert_ne by done. eauto.
Qed.

Lemma dotted_key_never_rebound_witness :
  ∃ d', heap_after (VRef 1) (VRef 13) (State extra_heap []) !! 1 = Some (ODict d') ∧
        d' !! "x.y" =
          ({[ "a" := VRef 2; "x.y" := VInt 1; "b" := VInt 0 ]} : gmap string value)
            !! "x.y".
Proof.
  apply (dotted_key_never_rebound (VRef 1) (VRef 13) (State extra_heap [])).
  - vm_compute. reflexivity.
  - reflexivity.
Defined.

(** ** Further properties of the pass over the findings *)

Lemma same_shape_trans h1 h2 h3 :
  same_shape h1 h2 → same_shape h2 h3 → same_shape h1 h3.
Proof.
  intros H12 H23 a. specialize (H12 a). specialize (H23 a).
  destruct (h1 !! a) as [[]|], (h2 !! a) as [[]|], (h3 !! a) as [[]|];
    try done; congruence.
Qed.

Lemma step_same_shape config σ m :
  same_shape (st_heap σ) (st_heap (step config σ m)).
Proof.
  pose proof (remediate_same_shape config m σ) as H.
  by rewrite remediate_misconfiguration_plan in H.
Qed.

Lemma pass_same_shape config F : ∀ σ,
  same_shape (st_heap σ) (st_heap (pass config F σ)).
Proof.
  induction F as [|m F IH]; intros σ; [apply same_shape_refl|].
  eapply same_shape_trans; [apply step_same_shape|apply IH].
Qed.

(** X7. What a pass never does: whatever the findings, after the pass
    the heap has the same objects as before, every list is as it was,
    and every dictionary has the same keys.  Nothing is created,
    removed or appended; only values of existing keys can differ. *)
Theorem pass_preserves_shape config F σ :
  same_shape (st_heap σ) (st_heap (remediate_all config F σ).1) ∧
  dom (st_heap (remediate_all config F σ).1) = dom (st_heap σ).
Proof.
  assert (same_shape (st_heap σ) (st_heap (remediate_all config F σ).1)) as Hs.
  { rewrite remediate_all_pass. cbn [fst].
    destruct F; [apply same_shape_refl|apply pass_same_shape]. }
  split; [done|]. apply set_eq. intros a. rewrite !elem_of_dom.
  specialize (Hs a).
  destruct (st_heap σ !! a) as [[]|],
           (st_heap (remediate_all config F σ).1 !! a) as [[]|]; try done;
    split; eauto; by intros [? ?].
Qed.

Lemma step_frame config h l m :
  step config (State h l) m =
    State (st_heap (step config (State h []) m))
          (l ++ st_log (step config (State h []) m)).
Proof. unfold step. simpl. by destruct (plan_of h config m). Qed.

Lemma pass_frame config F : ∀ h l l',
  pass config F (State h (l ++ l')) =
    State (st_heap (pass config F (State h l')))
          (l ++ st_log (pass config F (State h l'))).
Proof.
  induction F as [|m F IH]; intros h l l'; [done|].
  unfold pass in *. simpl.
  rewrite (step_frame config h (l ++ l')), (step_frame config h l').
  rewrite <- (assoc_L (++)). apply IH.
Qed.

(** X8. The log is write-only: a pass started with any log leaves the
    heap and appends the records that the same pass leaves when
    started with an empty log. *)
Theorem pass_ignores_log config F h l :
  remediate_all config F (State h l) =
    (State (st_heap (remediate_all config F (State h [])).1)
           (l ++ st_log (remediate_all config F (State h [])).1),
     Ok config).
Proof.
  rewrite !remediate_all_pass. cbn [fst]. destruct F as [|m F]; [done|].
  f_equal. rewrite <- (app_nil_r l) at 1. apply pass_frame.
Qed.

Lemma pass_app config F1 F2 σ :
  pass config (F1 ++ F2) σ = pass config F2 (pass config F1 σ).
Proof. apply foldl_app. Qed.

Lemma remediate_all_heap config F σ :
  st_heap (remediate_all config F σ).1 = st_heap (pass config F σ).
Proof. rewrite remediate_all_pass. by destruct F. Qed.

Lemma remediate_all_outcomes config F σ :
  outcomes (st_log (remediate_all config F σ).1) =
    outcomes (st_log (pass config F σ)).
Proof.
  rewrite remediate_all_pass. destruct F; [|done]. simpl.
  by rewrite outcomes_app, app_nil_r.
Qed.

Lemma pass_heap_frame config F σ :
  st_heap (pass config F σ) = st_heap (pass config F (State (st_heap σ) [])).
Proof.
  destruct σ as [h l]. rewrite <- (app_nil_r l) at 1.
  by rewrite pass_frame.
Qed.

Lemma pass_outcomes_frame config F σ :
  outcomes (st_log (pass config F σ)) =
    outcomes (st_log σ) ++
    outcomes (st_log (pass config F (State (st_heap σ) []))).
Proof.
  destruct σ as [h l]. rewrite <- (app_nil_r l) at 1.
  rewrite pass_frame. cbn [st_log st_heap]. by rewrite outcomes_app.
Qed.

(** X9. Splitting a report: a pass over [F1 ++ F2] leaves the heap, and
    adds the outcomes, of a pass over [F1] followed by a pass over [F2]
    on what the first left. *)
Theorem pass_split config F1 F2 σ :
  let σ12 := (remediate_all config (F1 ++ F2) σ).1 in
  let σ1 := (remediate_all config F1 σ).1 in
  let σ2 := (remediate_all config F2 σ1).1 in
  st_heap σ12 = st_heap σ2 ∧ outcomes (st_log σ12) = outcomes (st_log σ2).
Proof.
  cbv zeta. rewrite !remediate_all_heap, !remediate_all_outcomes, pass_app.
  split.
  - rewrite (pass_heap_frame config F2 (pass config F1 σ)).
    rewrite (pass_heap_frame config F2 (remediate_all config F1 σ).1).
    by rewrite remediate_all_heap.
  - rewrite (pass_outcomes_frame config F2 (pass config F1 σ)).
    rewrite (pass_outcomes_frame config F2 (remediate_all config F1 σ).1).
    by rewrite remediate_all_heap, remediate_all_outcomes.
Qed.






(** ** Further properties of [load_config] *)

(** X11. The results of [load_config]: the tag is ["yaml"] or ["json"]
    and nothing else; a missing file is the only failure that is raised
    as it is, every other failure comes wrapped by line 46; and when the
    YAML parser fails with anything but its own error class the JSON
    parser is not consulted.  The log is never written. *)
Theorem load_config_results read_file yaml json file σ σ' r :
  load_config read_file yaml json file σ = (σ', r) →
  st_log σ' = st_log σ ∧
  match r with
  | Ok (v, tag) =>
      ∃ text, read_file file = Some text ∧
        ((tag = "yaml" ∧ yaml text (st_heap σ) = (st_heap σ', Parsed v)) ∨
         (tag = "json" ∧ ∃ h, yaml text (st_heap σ) = (h, Rejected) ∧
                              json text h = (st_heap σ', Parsed v)))
  | Raise FileNotFoundError => read_file file = None ∧ σ' = σ
  | Raise (ErrorLoading NotValidYamlOrJson) =>
      ∃ text h, read_file file = Some text ∧
                yaml text (st_heap σ) = (h, Rejected) ∧
                json text h = (st_heap σ', Rejected)
  | Raise (ErrorLoading LibraryError) =>
      ∃ text, read_file file = Some text ∧
        (yaml text (st_heap σ) = (st_heap σ', Crashed) ∨
         ∃ h, yaml text (st_heap σ) = (h, Rejected) ∧
              json text h = (st_heap σ', Crashed))
  | Raise _ => False
  end.
Proof.
  unfold load_config, try_except, call_parser, bind, ret, raise.
  destruct σ as [h0 l0]. cbn [st_heap st_log].
  destruct (read_file file) as [text|] eqn:Hfile; cbn beta; cbn [st_heap st_log].
  - destruct (yaml text h0) as [h1 [v1| |]] eqn:Hy; cbn [st_heap st_log].
    + intros [= <- <-]. split; [done|]. exists text. eauto.
    + destruct (json text h1) as [h2 [v2| |]] eqn:Hj; cbn [st_heap st_log];
        intros [= <- <-]; (split; [done|]); eauto 10.
    + intros [= <- <-]. split; [done|]. exists text. eauto.
  - intros [= <- <-]. done.
Qed.

Lemma load_config_results_witness :
  st_log (State ∅ []) = st_log (State ∅ []) ∧
  ∃ text, (λ _ : string, Some "{}") "config.json" = Some text ∧
    (("json" = "yaml" ∧
      (λ (_ : string) (h : heap), (h, Rejected)) text (st_heap (State ∅ []))
        = (st_heap (State ∅ []), Parsed VNone)) ∨
     ("json" = "json" ∧ ∃ h,
        (λ (_ : string) (h : heap), (h, Rejected)) text (st_heap (State ∅ []))
          = (h, Rejected) ∧
        (λ (_ : string) (h : heap), (h, Parsed VNone)) text h
          = (st_heap (State ∅ []), Parsed VNone))).
Proof.
  apply (load_config_results (λ _, Some "{}") (λ _ h, (h, Rejected))
           (λ _ h, (h, Parsed VNone)) "config.json" (State ∅ []) (State ∅ [])
           (Ok (VNone, "json"))).
  reflexivity.
Defined.

(** ** The orchestration layer *)

Example main_overwrites_in_place :
  main toy_yaml_load toy_json_load toy_dump toy_dump (λ _, true) toy_key_order
       (toy_args false true) toy_world =
    (World (plain {[ "config.yaml" := "a: 1"; "report.json" := "report";
                     "config.yaml.bak" := "a: 0" ]})
           (w_heap (main toy_yaml_load toy_json_load toy_dump toy_dump
                         (λ _, true) toy_key_order
                         (toy_args false true) toy_world).1)
           [BackupCreated "config.yaml.bak";
            Remediation (Attempting (VRef 101));
            Remediation (Changing (VStr "a") (VInt 0) (VInt 1));
            ConfigWritten "config.yaml"; Completed]
           [],
     Returned).
Proof. vm_compute. reflexivity. Qed.

Example main_dry_run_prints :
  main toy_yaml_load toy_json_load toy_dump toy_dump (λ _, true) toy_key_order
       (toy_args true true) toy_world =
    (World (w_fs toy_world)
           (w_heap (main toy_yaml_load toy_json_load toy_dump toy_dump
                         (λ _, true) toy_key_order
                         (toy_args true true) toy_world).1)
           [Remediation (Attempting (VRef 101));
            Remediation (Changing (VStr "a") (VInt 0) (VInt 1));
            DryRunEnabled; Completed]
           ["a: 1"],
     Returned).
Proof. vm_compute. reflexivity. Qed.

(** When [config.yaml.bak] is a directory, the backup is the file
    [config.yaml.bak/config.yaml]; the log names [config.yaml.bak]. *)
Example main_backup_into_directory :
  let w := main toy_yaml_load toy_json_load toy_dump toy_dump (λ _, true)
                toy_key_order (toy_args false true) directory_world in
  fs_contents (w_fs w.1) =
    {[ "config.yaml" := "a: 1"; "report.json" := "report";
       "config.yaml.bak/config.yaml" := "a: 0" ]} ∧
  w_log w.1 = [BackupCreated "config.yaml.bak";
               Remediation (Attempting (VRef 101));
               Remediation (Changing (VStr "a") (VInt 0) (VInt 1));
               ConfigWritten "config.yaml"; Completed] ∧
  w.2 = Returned.
Proof. vm_compute. split_and!; reflexivity. Qed.

(** With [--output_file ./config.yaml.bak], another name of the backup
    file, the output replaces the backup that the run has just made. *)
Example main_output_onto_backup :
  let w := main toy_yaml_load toy_json_load toy_dump toy_dump (λ _, true)
                toy_key_order
                (Args "config.yaml" "report.json" (Some "./config.yaml.bak")
                      false true)
                dotted_world in
  fs_contents (w_fs w.1) =
    {[ "config.yaml" := "a: 0"; "report.json" := "report";
       "config.yaml.bak" := "a: 1" ]} ∧
  w.2 = Returned.
Proof. vm_compute. split_and!; reflexivity. Qed.

(** *** Reading and writing files *)

Lemma files_lookup_insert_same (fs : files) p q text :
  same_file fs q p → (<[p := text]> fs) !! q = Some text.
Proof.
  intros Hs. change ((<[fs_file fs p := text]> (fs_contents fs)) !! fs_file fs q
                     = Some text).
  rewrite Hs. apply lookup_insert_eq.
Qed.

Lemma files_lookup_insert (fs : files) p text : (<[p := text]> fs) !! p = Some text.
Proof. by apply files_lookup_insert_same. Qed.

Lemma files_lookup_insert_ne (fs : files) p q text :
  ¬ same_file fs q p → (<[p := text]> fs) !! q = fs !! q.
Proof.
  intros Hs. change ((<[fs_file fs p := text]> (fs_contents fs)) !! fs_file fs q
                     = fs_contents fs !! fs_file fs q).
  apply lookup_insert_ne. intros Heq. by apply Hs.
Qed.

Lemma files_insert_insert (fs : files) p text text' :
  <[p := text]> (<[p := text']> fs) = <[p := text]> fs.
Proof.
  change (Files (fs_file fs) (fs_copy fs)
            (<[fs_file fs p := text]> (<[fs_file fs p := text']> (fs_contents fs)))
          = Files (fs_file fs) (fs_copy fs)
              (<[fs_file fs p := text]> (fs_contents fs))).
  by rewrite insert_insert_eq.
Qed.

(** What the two stages can change. *)
Lemma after_backup_lookup a fs fs' p :
  after_backup a fs fs' → ¬ same_file fs p (backup_path fs a) →
  fs' !! p = fs !! p.
Proof.
  intros [->|(_ & _ & text & _ & _ & ->)] Hp; [done|].
  by apply files_lookup_insert_ne.
Qed.

Lemma after_output_lookup a fs fs' p :
  after_output a fs fs' → ¬ same_file fs p (output_file_path a) →
  fs' !! p = fs !! p.
Proof.
  intros [->|(_ & text & ->)] Hp; [done|]. by apply files_lookup_insert_ne.
Qed.

Lemma after_backup_names a fs fs' :
  after_backup a fs fs' → fs_file fs' = fs_file fs ∧ fs_copy fs' = fs_copy fs.
Proof. by intros [->|(_ & _ & text & _ & _ & ->)]. Qed.

Lemma wbind_inv {A B} (m : W A) (k : A → W B) w w' r :
  wbind m k w = (w', r) →
  (∃ w1 x, m w = (w1, Done x) ∧ k x w1 = (w', r)) ∨
  (∃ e, m w = (w', Fail e) ∧ r = Fail e).
Proof.
  unfold wbind. destruct (m w) as [w1 [x|e]]; [eauto|].
  intros [= <- <-]. eauto.
Qed.

Lemma keeps_wbind {A B} (m : W A) (k : A → W B) :
  keeps m → (∀ x, keeps (k x)) → keeps (wbind m k).
Proof.
  intros Hm Hk w. unfold wbind. specialize (Hm w).
  destruct (m w) as [w1 [x|e]]; [|done].
  destruct (Hk x w1) as [? ?]. destruct Hm as [? ?]. simpl in *. split; congruence.
Qed.

Lemma keeps_wtry {A} (m : W A) (handler : error → W A) :
  keeps m → (∀ e, keeps (handler e)) → keeps (wtry m handler).
Proof.
  intros Hm Hk w. unfold wtry. specialize (Hm w).
  destruct (m w) as [w1 [x|e]]; [done|].
  destruct (Hk e w1) as [? ?]. destruct Hm as [? ?]. simpl in *. split; congruence.
Qed.

Lemma keeps_lift {A} (m : M A) : keeps (lift m).
Proof. intros w. unfold lift. by destruct (m _). Qed.

Lemma keeps_wret {A} (x : A) : keeps (wret x).
Proof. by intros w. Qed.

Lemma keeps_wfail {A} e : keeps (@wfail A e).
Proof. by intros w. Qed.

Lemma keeps_log_event ev : keeps (log_event ev).
Proof. by intros w. Qed.

Lemma keeps_py_get_or_empty v key : keeps (py_get_or_empty v key).
Proof. intros w. unfold py_get_or_empty. by repeat case_match. Qed.

Lemma no_write_error_wbind {A B} (m : W A) (k : A → W B) :
  no_write_error m → (∀ x, no_write_error (k x)) → no_write_error (wbind m k).
Proof.
  intros Hm Hk w c. unfold wbind. specialize (Hm w c).
  destruct (m w) as [w1 [x|e]]; [apply Hk|].
  simpl in *. intros [= ->]. by apply Hm.
Qed.

Lemma no_write_error_wtry {A} (m : W A) (handler : error → W A) :
  (∀ e, no_write_error (handler e)) → no_write_error (wtry m handler).
Proof.
  intros Hk w c. unfold wtry. destruct (m w) as [w1 [x|e]]; [done|apply Hk].
Qed.

Lemma no_write_error_lift {A} (m : M A) : no_write_error (lift m).
Proof. intros w c. unfold lift. by destruct (m _) as [σ [x|e]]. Qed.

Lemma no_write_error_wret {A} (x : A) : no_write_error (wret x).
Proof. by intros w c. Qed.

Lemma no_write_error_log_event ev : no_write_error (log_event ev).
Proof. by intros w c. Qed.

Lemma no_write_error_py_get_or_empty v key :
  no_write_error (py_get_or_empty v key).
Proof. intros w c. unfold py_get_or_empty. by repeat case_match. Qed.

Section orchestrator_results.
Context (yaml_safe_load json_load : string → heap → heap * parsed).
Context (yaml_dump json_dump : heap → value → string * bool).
Context (writable : string → bool).
Context (key_order : gmap string value → list string).

Local Abbreviation load_config_w' := (load_config_w yaml_safe_load json_load).
Local Abbreviation load_report' := (load_report json_load).
Local Abbreviation write_config' := (write_config yaml_dump json_dump writable).
Local Abbreviation main_output' := (main_output yaml_dump json_dump writable).
Local Abbreviation main_remediate' := (main_remediate key_order).
Local Abbreviation main_backup' := (main_backup writable).
Local Abbreviation main_body' :=
  (main_body yaml_safe_load json_load yaml_dump json_dump writable key_order).
Local Abbreviation main' :=
  (main yaml_safe_load json_load yaml_dump json_dump writable key_order).
Local Abbreviation dumper_for' := (dumper_for yaml_dump json_dump).
Local Abbreviation bak a := (config_file a +:+ ".bak").

Lemma keeps_load_config_w file : keeps (load_config_w' file).
Proof. intros w. unfold load_config_w. apply keeps_lift. Qed.

Lemma no_write_error_load_config_w file : no_write_error (load_config_w' file).
Proof. intros w c. unfold load_config_w. apply no_write_error_lift. Qed.

Lemma keeps_load_report file : keeps (load_report' file).
Proof.
  apply keeps_wtry.
  - intros w. destruct (w_fs w !! file); [apply keeps_lift|done].
  - intros e. repeat case_match; apply keeps_wfail.
Qed.

Lemma no_write_error_load_report file : no_write_error (load_report' file).
Proof.
  apply no_write_error_wtry. intros e w c. by repeat case_match.
Qed.

Lemma keeps_main_remediate config report : keeps (main_remediate' config report).
Proof.
  unfold main_remediate.
  apply keeps_wbind; [apply keeps_py_get_or_empty|]. intros mis.
  apply keeps_wbind; [apply keeps_lift|]. intros [].
  - apply keeps_wbind; [apply keeps_log_event|]. intros; apply keeps_wret.
  - apply keeps_wbind; [apply keeps_lift|]. intros; apply keeps_lift.
Qed.

Lemma no_write_error_main_remediate config report :
  no_write_error (main_remediate' config report).
Proof.
  unfold main_remediate.
  apply no_write_error_wbind; [apply no_write_error_py_get_or_empty|]. intros mis.
  apply no_write_error_wbind; [apply no_write_error_lift|]. intros [].
  - apply no_write_error_wbind; [apply no_write_error_log_event|].
    intros; apply no_write_error_wret.
  - apply no_write_error_wbind; [apply no_write_error_lift|].
    intros; apply no_write_error_lift.
Qed.

(** The document that comes out of the remediation stage is the one
    that went in. *)
Lemma main_remediate_same_config config report w w' config' :
  main_remediate' config report w = (w', Done config') → config' = config.
Proof.
  unfold main_remediate.
  intros [(w1 & mis & _ & H)|(e & _ & [=])]%wbind_inv.
  apply wbind_inv in H as [(w2 & none & _ & H)|(e & _ & [=])].
  destruct none.
  - apply wbind_inv in H as [(w3 & [] & _ & H)|(e & _ & [=])].
    by injection H as _ <-.
  - apply wbind_inv in H as [(w3 & items & _ & H)|(e & _ & [=])].
    unfold lift in H. rewrite remediate_each_pass in H. by injection H as _ <-.
Qed.

(** The backup stage: it prints nothing, never fails with a writing
    error, and when it is due and succeeds the backup file holds the
    contents of the configuration file. *)
Lemma main_backup_inv a w w' r :
  main_backup' a w = (w', r) →
  w_out w' = w_out w ∧ (∀ c, r ≠ Fail (ErrorWriting c)) ∧
  after_backup a (w_fs w) (w_fs w') ∧
  (r = Done tt → backup a = true → dry_run a = false →
   ∃ text, w_fs w !! config_file a = Some text ∧
           ¬ same_file (w_fs w) (config_file a) (backup_path (w_fs w) a) ∧
           w_fs w' = <[backup_path (w_fs w) a := text]> (w_fs w)).
Proof.
  unfold main_backup.
  destruct (backup a) eqn:Hb, (dry_run a) eqn:Hd; simpl;
    try (intros [= <- <-]; split_and!; [done|done|by left|done]).
  unfold wbind, copy2. fold (backup_path (w_fs w) a).
  destruct (w_fs w !! config_file a) as [text|] eqn:Hc.
  - destruct (decide (same_file (w_fs w) (config_file a) (backup_path (w_fs w) a)))
      as [Hs|Hs].
    + rewrite bool_decide_true by done.
      intros [= <- <-]. split_and!; [done|done|by left|done].
    + rewrite bool_decide_false by done.
      destruct (writable (backup_path (w_fs w) a)); simpl.
      * intros [= <- <-]. simpl. split_and!; try done.
        -- right. split_and!; try done. by exists text.
        -- intros _ _ _. by exists text.
      * intros [= <- <-]. split_and!; [done|done|by left|done].
  - intros [= <- <-]. split_and!; [done|done|by left|done].
Qed.

Lemma write_config_run config output_file config_type w :
  write_config' config output_file config_type w =
    if writable output_file then
      match dumper_for' config_type with
      | Some dumper =>
          (World (<[output_file := (dumper (w_heap w) config).1]> (w_fs w))
                 (w_heap w) (w_log w) (w_out w),
           if (dumper (w_heap w) config).2 then Done tt
           else Fail (ErrorWriting DumpError))
      | None =>
          (World (<[output_file := ""]> (w_fs w)) (w_heap w) (w_log w) (w_out w),
           Fail (ErrorWriting InvalidConfigType))
      end
    else (w, Fail (ErrorWriting OSError)).
Proof.
  unfold write_config, wtry, wbind, open_w, dumper_for.
  destruct (writable output_file); [|done].
  destruct (String.eqb config_type "yaml").
  - unfold dump_to. cbn [w_fs w_heap w_log w_out].
    destruct (yaml_dump (w_heap w) config) as [text []];
      cbn [fst snd]; by rewrite files_insert_insert.
  - destruct (String.eqb config_type "json"); [|done].
    unfold dump_to. cbn [w_fs w_heap w_log w_out].
    destruct (json_dump (w_heap w) config) as [text []];
      cbn [fst snd]; by rewrite files_insert_insert.
Qed.

(** X14. A completed [write_config']: the path could be opened, the tag
    was ["yaml"] or ["json"], the serializer of that tag ran to its end,
    and the file holds its text; nothing else in the world changed. *)
Theorem write_config_done config output_file config_type w w' :
  write_config yaml_dump json_dump writable config output_file config_type w = (w', Done tt) →
  writable output_file = true ∧
  ∃ dumper text,
    dumper_for yaml_dump json_dump config_type = Some dumper ∧
    dumper (w_heap w) config = (text, true) ∧
    w' = World (<[output_file := text]> (w_fs w)) (w_heap w) (w_log w) (w_out w).
Proof.
  rewrite write_config_run.
  destruct (writable output_file); [|done].
  destruct (dumper_for' config_type) as [dumper|]; [|done].
  destruct (dumper (w_heap w) config) as [text []] eqn:Hd; simpl; [|done].
  intros [= <-]. split; [done|]. by exists dumper, text.
Qed.

(** X15. A failed [write_config'] on a path that could be opened has
    already replaced the file: with an unknown tag the file is left
    empty, and when the serializer raised the file holds what the
    serializer had written until then.  The error is the wrapper of line
    139. *)
Theorem write_config_failed config output_file config_type w w' e :
  writable output_file = true →
  write_config yaml_dump json_dump writable config output_file config_type w = (w', Fail e) →
  (dumper_for yaml_dump json_dump config_type = None ∧ e = ErrorWriting InvalidConfigType ∧
   w_fs w' = <[output_file := ""]> (w_fs w)) ∨
  (∃ dumper text,
     dumper_for yaml_dump json_dump config_type = Some dumper ∧
     dumper (w_heap w) config = (text, false) ∧
     e = ErrorWriting DumpError ∧
     w_fs w' = <[output_file := text]> (w_fs w)).
Proof.
  intros Hw. rewrite write_config_run, Hw.
  destruct (dumper_for' config_type) as [dumper|].
  - destruct (dumper (w_heap w) config) as [text []] eqn:Hd; simpl; [done|].
    intros [= <- <-]. right. by exists dumper, text.
  - intros [= <- <-]. left. by split_and!.
Qed.

(** X16. The results of [load_report']: a missing file is raised as
    [FileNotFoundError]; a text the JSON parser rejects is raised as the
    [ValueError] of line 61, not wrapped (it is raised inside an
    [except] clause, so the clause of line 62 does not see it); any
    other failure comes wrapped by line 63.  No file changes. *)
Theorem load_report_results report_file w w' r :
  load_report json_load report_file w = (w', r) →
  w_fs w' = w_fs w ∧ w_log w' = w_log w ∧ w_out w' = w_out w ∧
  match r with
  | Done v =>
      ∃ text, w_fs w !! report_file = Some text ∧
              json_load text (w_heap w) = (w_heap w', Parsed v)
  | Fail (Engine FileNotFoundError) => w_fs w !! report_file = None ∧ w' = w
  | Fail ReportNotValidJson =>
      ∃ text, w_fs w !! report_file = Some text ∧
              json_load text (w_heap w) = (w_heap w', Rejected)
  | Fail (ErrorLoadingReport (Engine LibraryError)) =>
      ∃ text, w_fs w !! report_file = Some text ∧
              json_load text (w_heap w) = (w_heap w', Crashed)
  | Fail _ => False
  end.
Proof.
  unfold load_report, wtry, lift, call_parser, wfail.
  destruct (w_fs w !! report_file) as [text|] eqn:Hfile.
  - simpl. destruct (json_load text (w_heap w)) as [h [v| |]] eqn:Hj; simpl;
      intros [= <- <-]; simpl; rewrite app_nil_r; split_and!; eauto.
  - intros [= <- <-]. by split_and!.
Qed.

(** What [main_body'] has done when it reaches the output stage, and
    what it has done when it fails before. *)
Lemma main_body_inv a w w' r :
  main_body' a w = (w', r) →
  (∃ e, r = Fail e ∧ (∀ c, e ≠ ErrorWriting c) ∧ w_out w' = w_out w ∧
        after_backup a (w_fs w) (w_fs w')) ∨
  (∃ w1 wp loaded config,
     load_config_w' (config_file a) w = (w1, Done loaded) ∧
     config = loaded.1 ∧
     w_out wp = w_out w ∧
     after_backup a (w_fs w) (w_fs wp) ∧
     (backup a = true → dry_run a = false →
      ∃ text, w_fs w !! config_file a = Some text ∧
              ¬ same_file (w_fs w) (config_file a) (backup_path (w_fs w) a) ∧
              w_fs wp = <[backup_path (w_fs w) a := text]> (w_fs w)) ∧
     main_output' a config loaded.2 wp = (w', r)).
Proof.
  unfold main_body. intros H.
  apply wbind_inv in H as [(w1 & loaded & H1 & H)|(e & H1 & ->)].
  2:{ left. exists e. pose proof (keeps_load_config_w (config_file a) w) as [Hf Ho].
      pose proof (no_write_error_load_config_w (config_file a) w) as Hn.
      rewrite H1 in Hf, Ho, Hn. simpl in *.
      split; [done|]. split; [intros c ->; by apply (Hn c)|].
      split; [done|]. by left. }
  pose proof (keeps_load_config_w (config_file a) w) as [Hf1 Ho1].
  rewrite H1 in Hf1, Ho1. simpl in Hf1, Ho1.
  apply wbind_inv in H as [(w2 & report & H2 & H)|(e & H2 & ->)].
  2:{ left. exists e. pose proof (keeps_load_report (report_file a) w1) as [Hf Ho].
      pose proof (no_write_error_load_report (report_file a) w1) as Hn.
      rewrite H2 in Hf, Ho, Hn. simpl in *.
      split; [done|]. split; [intros c ->; by apply (Hn c)|].
      split; [congruence|]. left. congruence. }
  pose proof (keeps_load_report (report_file a) w1) as [Hf2 Ho2].
  rewrite H2 in Hf2, Ho2. simpl in Hf2, Ho2.
  assert (w_fs w2 = w_fs w) as Hf12 by congruence.
  apply wbind_inv in H as [(w3 & [] & H3 & H)|(e & H3 & ->)].
  2:{ left. exists e. apply main_backup_inv in H3 as (Ho & Hn & Hf & _).
      split; [done|]. split; [intros c ->; by apply (Hn c)|].
      split; [congruence|]. by rewrite Hf12 in Hf. }
  apply main_backup_inv in H3 as (Ho3 & _ & Hf3 & Hb3).
  rewrite Hf12 in Hf3, Hb3.
  apply wbind_inv in H as [(w4 & config & H4 & H)|(e & H4 & ->)].
  2:{ left. exists e.
      pose proof (keeps_main_remediate loaded.1 report w3) as [Hf Ho].
      pose proof (no_write_error_main_remediate loaded.1 report w3) as Hn.
      rewrite H4 in Hf, Ho, Hn. simpl in *.
      split; [done|]. split; [intros c ->; by apply (Hn c)|].
      split; [congruence|]. by rewrite Hf. }
  pose proof (keeps_main_remediate loaded.1 report w3) as [Hf4 Ho4].
  rewrite H4 in Hf4, Ho4. simpl in Hf4, Ho4.
  apply main_remediate_same_config in H4 as ->.
  right. exists w1, w4, loaded, loaded.1.
  split; [done|]. split; [done|]. split; [congruence|].
  split; [by rewrite Hf4|]. split; [|done].
  intros Hb Hd. rewrite Hf4. by apply Hb3.
Qed.

Lemma main_output_write a config config_type w w' r :
  dry_run a = false →
  main_output' a config config_type w = (w', r) →
  w_out w' = w_out w ∧ w_heap w' = w_heap w ∧
  match r with
  | Done _ =>
      ∃ dumper text,
        dumper_for' config_type = Some dumper ∧
        dumper (w_heap w) config = (text, true) ∧
        w_fs w' = <[output_file_path a := text]> (w_fs w)
  | Fail e => ∃ c, e = ErrorWriting c
  end.
Proof.
  intros Hd. unfold main_output. rewrite Hd.
  intros [(w1 & [] & H1 & H)|(e & H1 & ->)]%wbind_inv.
  - rewrite write_config_run in H1.
    destruct (writable (output_file_path a)); [|done].
    destruct (dumper_for' config_type) as [dumper|]; [|done].
    destruct (dumper (w_heap w) config) as [text []] eqn:Hdump; simpl in H1;
      [|done].
    injection H1 as <-. injection H as <- <-. simpl. split_and!; try done.
    by exists dumper, text.
  - rewrite write_config_run in H1. revert H1.
    repeat case_match; intros [= <- <-]; simpl; split_and!; eauto.
Qed.

Lemma main_output_dry a config config_type w w' r :
  dry_run a = true →
  main_output' a config config_type w = (w', r) →
  w_fs w' = w_fs w ∧ w_heap w' = w_heap w ∧
  match r with
  | Done _ =>
      match dumper_for' config_type with
      | Some dumper =>
          ∃ text, dumper (w_heap w) config = (text, true) ∧
                  w_out w' = w_out w ++ [text]
      | None => w_out w' = w_out w
      end
  | Fail e => e = DumpError ∧ w_out w' = w_out w
  end.
Proof.
  intros Hd. unfold main_output, dumper_for. rewrite Hd.
  unfold wbind, log_event, dumps, print, wret. simpl.
  destruct (String.eqb config_type "yaml").
  - destruct (yaml_dump (w_heap w) config) as [text []] eqn:Hdump;
      simpl; rewrite Hdump; simpl; intros [= <- <-]; simpl; split_and!; eauto.
  - destruct (String.eqb config_type "json").
    + destruct (json_dump (w_heap w) config) as [text []] eqn:Hdump;
        simpl; rewrite Hdump; simpl; intros [= <- <-]; simpl; split_and!; eauto.
    + intros [= <- <-]. by split_and!.
Qed.

Lemma main_output_files a config config_type w w' r :
  main_output' a config config_type w = (w', r) →
  after_output a (w_fs w) (w_fs w').
Proof.
  destruct (dry_run a) eqn:Hd; intros H.
  - apply main_output_dry in H as (Hfs & _); [|done]. by left.
  - unfold main_output in H. rewrite Hd in H.
    assert (after_output a (w_fs w)
              (w_fs (write_config' config (output_file_path a) config_type w).1))
      as Hw.
    { rewrite write_config_run. repeat case_match; simpl;
        first [by left | right; split; [done|]; eauto]. }
    apply wbind_inv in H as [(w1 & [] & H1 & H)|(e & H1 & ->)];
      rewrite H1 in Hw; [|done].
    by injection H as <- _.
Qed.

(** The files after [main']: those before it, after a backup stage and
    an output stage. *)
Lemma main_files a w :
  ∃ fs1, after_backup a (w_fs w) fs1 ∧ after_output a fs1 (w_fs (main' a w).1).
Proof.
  unfold main.
  destruct (negb (path_exists (config_file a) w));
    [exists (w_fs w); split; by left|].
  destruct (negb (path_exists (report_file a) w));
    [exists (w_fs w); split; by left|].
  destruct (main_body' a w) as [wb r] eqn:Hb.
  assert (∃ fs1, after_backup a (w_fs w) fs1 ∧ after_output a fs1 (w_fs wb))
    as Hfiles.
  { apply main_body_inv in Hb as [(e & _ & _ & _ & Hf)|Hb].
    - exists (w_fs wb). split; [done|by left].
    - destruct Hb as (w1 & wp & loaded & config & _ & _ & _ & Hf & _ & Hout).
      exists (w_fs wp). split; [done|]. by eapply main_output_files. }
  by destruct r.
Qed.

Lemma main_run a w :
  main' a w =
    if negb (path_exists (config_file a) w) then
      (World (w_fs w) (w_heap w) (w_log w ++ [ConfigNotFound (config_file a)])
             (w_out w), Exited 1)
    else if negb (path_exists (report_file a) w) then
      (World (w_fs w) (w_heap w) (w_log w ++ [ReportNotFound (report_file a)])
             (w_out w), Exited 1)
    else
      let w' := (main_body' a w).1 in
      match (main_body' a w).2 with
      | Done _ =>
          (World (w_fs w') (w_heap w') (w_log w' ++ [Completed]) (w_out w'),
           Returned)
      | Fail e =>
          (World (w_fs w') (w_heap w') (w_log w' ++ [ErrorOccurred e]) (w_out w'),
           Exited 1)
      end.
Proof.
  unfold main. repeat case_match; simpl in *; by simplify_eq.
Qed.

(** X17. The format is kept: when a run that is not a dry run returns,
    the output file holds the text of the serializer that belongs to
    the tag [load_config] gave (["yaml"] after [yaml.safe_load],
    ["json"] after [json.load]), applied to the document [load_config]
    returned, as it stands in the heap at the end of the run. *)
Theorem main_returned_written a w w' :
  main yaml_safe_load json_load yaml_dump json_dump
        writable key_order a w = (w', Returned) → dry_run a = false →
  ∃ w1 config config_type dumper text,
    load_config_w yaml_safe_load json_load (config_file a) w = (w1, Done (config, config_type)) ∧
    dumper_for yaml_dump json_dump config_type = Some dumper ∧
    dumper (w_heap w') config = (text, true) ∧
    w_fs w' !! output_file_path a = Some text.
Proof.
  rewrite main_run. intros H Hd.
  destruct (negb (path_exists (config_file a) w)); [done|].
  destruct (negb (path_exists (report_file a) w)); [done|].
  destruct (main_body' a w) as [wb [[]|e]] eqn:Hb; simpl in H; [|done].
  injection H as <-.
  apply main_body_inv in Hb as [(e & [=] & _)|Hb].
  destruct Hb as (w1 & wp & [config tag] & ? & H1 & -> & _ & _ & _ & Hout).
  apply main_output_write in Hout as (_ & Hheap & dumper & text & Hdf & Hdump & Hfs);
    [|done].
  exists w1, config, tag, dumper, text. simpl in *. split_and!; try done.
  - by rewrite Hheap.
  - by rewrite Hfs, files_lookup_insert.
Qed.

(** X12. The files [main'] can change: whatever the arguments, the files
    and the libraries, a path whose file has other contents after the
    run names the output file (the [--output_file] when it is given and
    not empty, else the configuration file itself) or, when [--backup]
    was given, the file that the backup writes ([config_file + ".bak"],
    or the file inside it when that is a directory); and then the run
    was not a dry run. *)
Theorem main_touches_only a w p :
  w_fs (main yaml_safe_load json_load yaml_dump json_dump
        writable key_order a w).1 !! p ≠ w_fs w !! p →
  dry_run a = false ∧
  (same_file (w_fs w) p (output_file_path a) ∨
   (backup a = true ∧ same_file (w_fs w) p (backup_path (w_fs w) a))).
Proof.
  intros Hne. destruct (main_files a w) as (fs1 & Hb & Ho).
  destruct (decide (same_file (w_fs w) p (output_file_path a))) as [Hso|Hso].
  - split; [|by left].
    destruct Ho as [Ho|[Hd _]]; [|done].
    destruct Hb as [Hb|(_ & Hd & _)]; [|done]. congruence.
  - destruct (decide (same_file (w_fs w) p (backup_path (w_fs w) a))) as [Hsb|Hsb].
    + destruct Hb as [->|(Hbk & Hd & _)]; [|by auto].
      exfalso. apply Hne. by apply (after_output_lookup a).
    + exfalso. apply Hne.
      rewrite (after_output_lookup a fs1 _ p Ho).
      * by apply (after_backup_lookup a).
      * unfold same_file. by rewrite (proj1 (after_backup_names _ _ _ Hb)).
Qed.

(** X13. A dry run changes no file: with [--dry_run] the file system
    after [main'] is the file system before it, whatever else happens
    (also with [--backup], and also when the run fails). *)
Theorem dry_run_writes_nothing a w :
  dry_run a = true →
  w_fs (main yaml_safe_load json_load yaml_dump json_dump
        writable key_order a w).1 = w_fs w.
Proof.
  intros Hd. destruct (main_files a w) as (fs1 & Hb & Ho).
  destruct Ho as [->|[Hd' _]]; [|congruence].
  destruct Hb as [->|(_ & Hd' & _)]; [done|congruence].
Qed.

(** X18. The backup: when [--backup] is given on a run that is not a dry
    run, and the output file is not the file that the backup writes,
    then after a run that returned, and also after a run that failed
    while writing the output, the path that the backup writes
    ([config_file + ".bak"], or the path inside it when that is a
    directory) holds what the configuration file held before the
    run. *)
Theorem backup_holds_original a w w' st :
  main yaml_safe_load json_load yaml_dump json_dump
        writable key_order a w = (w', st) →
  backup a = true → dry_run a = false →
  ¬ same_file (w_fs w) (output_file_path a) (backup_path (w_fs w) a) →
  (st = Returned ∨ ∃ c, last (w_log w') = Some (ErrorOccurred (ErrorWriting c))) →
  is_Some (w_fs w !! config_file a) ∧
  w_fs w' !! backup_path (w_fs w) a = w_fs w !! config_file a.
Proof.
  rewrite main_run. intros H Hbk Hd Hne Hst.
  destruct (negb (path_exists (config_file a) w)).
  { injection H as <- <-. destruct Hst as [[=]|[c Hc]].
    simpl in Hc. by rewrite last_snoc in Hc. }
  destruct (negb (path_exists (report_file a) w)).
  { injection H as <- <-. destruct Hst as [[=]|[c Hc]].
    simpl in Hc. by rewrite last_snoc in Hc. }
  destruct (main_body' a w) as [wb r] eqn:Hb. simpl in H.
  apply main_body_inv in Hb as [(e & -> & Hn & _)|Hb].
  { injection H as <- <-. destruct Hst as [[=]|[c Hc]].
    simpl in Hc. rewrite last_snoc in Hc. injection Hc as ->. by destruct (Hn c). }
  destruct Hb as (w1 & wp & loaded & config & H1 & -> & _ & _ & Hbak & Hout).
  destruct (Hbak Hbk Hd) as (text & Hc & Hsame & Hcopy).
  split; [by rewrite Hc|].
  apply main_output_files in Hout.
  assert (w_fs wb !! backup_path (w_fs w) a = Some text) as Hkeep.
  { rewrite (after_output_lookup a (w_fs wp) _ _ Hout).
    - by rewrite Hcopy, files_lookup_insert.
    - rewrite Hcopy. intros Hs. apply Hne. symmetry. exact Hs. }
  rewrite Hc. destruct r as [[]|e]; injection H as <- <-; simpl; congruence.
Qed.

(** X19. The standard output: a run that is not a dry run prints
    nothing; a dry run that returns has printed, as its only output,
    the text of the serializer that belongs to the tag of
    [load_config], applied to the remediated document; a dry run that
    fails has printed nothing. *)
Theorem main_prints a w w' st :
  main yaml_safe_load json_load yaml_dump json_dump
        writable key_order a w = (w', st) →
  (st = Returned ∧ dry_run a = true ∧
   ∃ w1 config config_type,
     load_config_w yaml_safe_load json_load (config_file a) w = (w1, Done (config, config_type)) ∧
     match dumper_for yaml_dump json_dump config_type with
     | Some dumper =>
         ∃ text, dumper (w_heap w') config = (text, true) ∧
                 w_out w' = w_out w ++ [text]
     | None => w_out w' = w_out w
     end) ∨
  ((st = Returned → dry_run a = false) ∧ w_out w' = w_out w).
Proof.
  rewrite main_run. intros H.
  destruct (negb (path_exists (config_file a) w)).
  { injection H as <- <-. by right. }
  destruct (negb (path_exists (report_file a) w)).
  { injection H as <- <-. by right. }
  destruct (main_body' a w) as [wb r] eqn:Hb. simpl in H.
  apply main_body_inv in Hb as [(e & -> & _ & Ho & _)|Hb].
  { injection H as <- <-. by right. }
  destruct Hb as (w1 & wp & [config tag] & ? & H1 & -> & Ho & _ & _ & Hout).
  simpl in Hout. destruct (dry_run a) eqn:Hd.
  - apply main_output_dry in Hout as (_ & Hheap & Hr); [|done].
    destruct r as [[]|e]; injection H as <- <-; simpl.
    + left. split_and!; try done. exists w1, config, tag. split; [done|].
      destruct (dumper_for' tag) as [dumper|]; [|congruence].
      destruct Hr as (text & Hdump & Hout). exists text.
      rewrite Hheap. split; congruence.
    + right. destruct Hr as [_ Hr]. split; [done|congruence].
  - apply main_output_write in Hout as (Hout & _); [|done].
    right. destruct r as [[]|e]; injection H as <- <-; simpl;
      (split; [done|congruence]).
Qed.

(** X20. A run that fails before it starts to write the output leaves
    every file as it was, except for the backup it may have made:
    whenever [main'] exits and the error it logged last is not the
    wrapper of [write_config'], every path that does not name the file
    that the backup writes has its old contents. *)
Theorem failed_run_spares_files a w w' code p :
  main yaml_safe_load json_load yaml_dump json_dump
        writable key_order a w = (w', Exited code) →
  (∀ c, last (w_log w') ≠ Some (ErrorOccurred (ErrorWriting c))) →
  ¬ same_file (w_fs w) p (backup_path (w_fs w) a) →
  w_fs w' !! p = w_fs w !! p.
Proof.
  rewrite main_run. intros H Hlast Hp.
  destruct (negb (path_exists (config_file a) w)).
  { by injection H as <- _. }
  destruct (negb (path_exists (report_file a) w)).
  { by injection H as <- _. }
  destruct (main_body' a w) as [wb r] eqn:Hb. simpl in H.
  destruct r as [[]|e]; [done|]. injection H as <- _. simpl in *.
  apply main_body_inv in Hb as [(e' & [= <-] & _ & _ & Hf)|Hb];
    [by apply (after_backup_lookup a)|].
  destruct Hb as (w1 & wp & loaded & config & H1 & -> & _ & Hf & _ & Hout).
  destruct (dry_run a) eqn:Hd.
  - apply main_output_dry in Hout as (Hfs & _); [|done]. rewrite Hfs.
    by apply (after_backup_lookup a).
  - apply main_output_write in Hout as (_ & _ & c & ->); [|done].
    destruct (Hlast c). by rewrite last_snoc.
Qed.
End orchestrator_results.

Lemma main_touches_only_witness :
  dry_run (toy_args false true) = false ∧
  (same_file (w_fs toy_world) "config.yaml.bak"
             (output_file_path (toy_args false true)) ∨
   (backup (toy_args false true) = true ∧
    same_file (w_fs toy_world) "config.yaml.bak"
              (backup_path (w_fs toy_world) (toy_args false true)))).
Proof.
  apply (main_touches_only toy_yaml_load toy_json_load toy_dump toy_dump
           (λ _, true) toy_key_order (toy_args false true) toy_world
           "config.yaml.bak").
  vm_compute. discriminate.
Defined.

Lemma dry_run_writes_nothing_witness :
  w_fs (main toy_yaml_load toy_json_load toy_dump toy_dump (λ _, true)
             toy_key_order (toy_args true true) toy_world).1 = w_fs toy_world.
Proof.
  apply (dry_run_writes_nothing toy_yaml_load toy_json_load toy_dump toy_dump
           (λ _, true) toy_key_order (toy_args true true) toy_world).
  reflexivity.
Defined.

Lemma write_config_done_witness :
  (λ _ : string, true) "out.yaml" = true ∧
  ∃ dumper text,
    dumper_for toy_dump toy_dump "yaml" = Some dumper ∧
    dumper (w_heap document_world) (VRef 1) = (text, true) ∧
    (toy_write_config (VRef 1) "out.yaml" "yaml" document_world).1 =
      World (<["out.yaml" := text]> (w_fs document_world))
            (w_heap document_world) (w_log document_world)
            (w_out document_world).
Proof.
  apply (write_config_done toy_dump toy_dump (λ _, true) (VRef 1)
           "out.yaml" "yaml" document_world).
  vm_compute. reflexivity.
Defined.

Lemma write_config_failed_witness :
  (dumper_for toy_dump toy_dump "xml" = None ∧
   ErrorWriting InvalidConfigType = ErrorWriting InvalidConfigType ∧
   w_fs (toy_write_config (VRef 1) "out.yaml" "xml" document_world).1 =
     <["out.yaml" := ""]> (w_fs document_world)) ∨
  (∃ dumper text,
     dumper_for toy_dump toy_dump "xml" = Some dumper ∧
     dumper (w_heap document_world) (VRef 1) = (text, false) ∧
     ErrorWriting InvalidConfigType = ErrorWriting DumpError ∧
     w_fs (toy_write_config (VRef 1) "out.yaml" "xml" document_world).1 =
       <["out.yaml" := text]> (w_fs document_world)).
Proof.
  apply (write_config_failed toy_dump toy_dump (λ _, true) (VRef 1)
           "out.yaml" "xml" document_world).
  - reflexivity.
  - vm_compute. reflexivity.
Defined.

(** A serializer that raises half way leaves its part in the file. *)
Example write_config_partial :
  toy_write_config (VRef 2) "out.yaml" "json" document_world =
    (World (plain {[ "out.yaml" := "{" ]}) (w_heap document_world) [] [],
     Fail (ErrorWriting DumpError)).
Proof. vm_compute. reflexivity. Qed.

Lemma load_report_results_witness :
  w_fs (load_report toy_json_load "report.json" broken_report_world).1 =
    w_fs broken_report_world ∧
  w_log (load_report toy_json_load "report.json" broken_report_world).1 =
    w_log broken_report_world ∧
  w_out (load_report toy_json_load "report.json" broken_report_world).1 =
    w_out broken_report_world ∧
  ∃ text, w_fs broken_report_world !! "report.json" = Some text ∧
          toy_json_load text (w_heap broken_report_world) =
            (w_heap (load_report toy_json_load "report.json"
                       broken_report_world).1, Rejected).
Proof.
  apply (load_report_results toy_json_load "report.json" broken_report_world
           (load_report toy_json_load "report.json" broken_report_world).1
           (Fail ReportNotValidJson)).
  vm_compute. reflexivity.
Defined.

Lemma main_returned_written_witness :
  ∃ w1 config config_type dumper text,
    load_config_w toy_yaml_load toy_json_load "config.yaml" toy_world =
      (w1, Done (config, config_type)) ∧
    dumper_for toy_dump toy_dump config_type = Some dumper ∧
    dumper (w_heap (toy_main (toy_args false false) toy_world).1) config =
      (text, true) ∧
    w_fs (toy_main (toy_args false false) toy_world).1
      !! output_file_path (toy_args false false) = Some text.
Proof.
  apply (main_returned_written toy_yaml_load toy_json_load toy_dump toy_dump
           (λ _, true) toy_key_order (toy_args false false) toy_world).
  - vm_compute. reflexivity.
  - reflexivity.
Defined.

Lemma backup_holds_original_witness :
  is_Some (w_fs directory_world !! "config.yaml") ∧
  w_fs (toy_main (toy_args false true) directory_world).1
    !! backup_path (w_fs directory_world) (toy_args false true) =
    w_fs directory_world !! "config.yaml".
Proof.
  apply (backup_holds_original toy_yaml_load toy_json_load toy_dump toy_dump
           (λ _, true) toy_key_order (toy_args false true) directory_world
           (toy_main (toy_args false true) directory_world).1 Returned).
  - vm_compute. reflexivity.
  - reflexivity.
  - reflexivity.
  - vm_compute. discriminate.
  - by left.
Defined.

Lemma main_prints_witness :
  (Returned = Returned ∧ dry_run (toy_args true false) = true ∧
   ∃ w1 config config_type,
     load_config_w toy_yaml_load toy_json_load "config.yaml" toy_world =
       (w1, Done (config, config_type)) ∧
     match dumper_for toy_dump toy_dump config_type with
     | Some dumper =>
         ∃ text,
           dumper (w_heap (toy_main (toy_args true false) toy_world).1) config =
             (text, true) ∧
           w_out (toy_main (toy_args true false) toy_world).1 =
             w_out toy_world ++ [text]
     | None => w_out (toy_main (toy_args true false) toy_world).1 = w_out toy_world
     end) ∨
  ((Returned = Returned → dry_run (toy_args true false) = false) ∧
   w_out (toy_main (toy_args true false) toy_world).1 = w_out toy_world).
Proof.
  apply (main_prints toy_yaml_load toy_json_load toy_dump toy_dump
           (λ _, true) toy_key_order (toy_args true false) toy_world
           (toy_main (toy_args true false) toy_world).1 Returned).
  vm_compute. reflexivity.
Defined.

Lemma failed_run_spares_files_witness :
  w_fs (toy_main (toy_args false true) broken_report_world).1 !! "config.yaml" =
    w_fs broken_report_world !! "config.yaml".
Proof.
  apply (failed_run_spares_files toy_yaml_load toy_json_load toy_dump toy_dump
           (λ _, true) toy_key_order (toy_args false true) broken_report_world
           (toy_main (toy_args false true) broken_report_world).1 1).
  - vm_compute. reflexivity.
  - intros c. vm_compute. discriminate.
  - vm_compute. discriminate.
Defined.

(** ** The remediation stage of [main] *)

Lemma lift_reader {A} (m : M A) w :
  reader m →
  lift m w = (w, match eval m (w_heap w) with
                 | Ok x => Done x
                 | Raise e => Fail (Engine e)
                 end).
Proof.
  intros Hm. unfold lift. rewrite (Hm (State (w_heap w) [])). simpl.
  rewrite app_nil_r. by destruct w.
Qed.

Section remediation_stage.
Context (key_order : gmap string value → list string).

Lemma reader_py_iter v : reader (py_iter key_order v).
Proof. unfold py_iter. reader_tac. Qed.

(** X21. Lines 177-182 on a report that holds a list under
    ["misconfigurations"]: apart from the empty list that [get] builds
    for its default, the stage acts on the heap, and adds to the log,
    exactly as [remediate_all] on the items of the list, and it never
    fails. *)
Theorem main_remediate_list config report w f d l F :
  report = VRef f →
  w_heap w !! f = Some (ODict d) →
  d !! "misconfigurations" = Some (VRef l) →
  w_heap w !! l = Some (OList F) →
  let h := <[fresh (dom (w_heap w)) := OList []]> (w_heap w) in
  let σ := (remediate_all config F (State h [])).1 in
  main_remediate key_order config report w =
    (World (w_fs w) (st_heap σ) (w_log w ++ (Remediation <$> st_log σ)) (w_out w),
     Done config).
Proof.
  intros -> Hf Hd Hl h σ. unfold main_remediate, py_get_or_empty.
  unfold wbind at 1. rewrite Hf, Hd. cbv [default from_option id].
  fold h.
  assert (h !! l = Some (OList F)) as Hl'.
  { unfold h. rewrite lookup_insert_ne; [done|]. intros <-.
    apply elem_of_dom_2 in Hl. by apply is_fresh in Hl. }
  unfold wbind at 1. rewrite lift_reader by eauto with reader. cbn [w_heap].
  assert (eval (py_not (VRef l)) h = Ok (bool_decide (F = []))) as ->.
  { unfold eval, py_not, truthy, bind, load. simpl. rewrite Hl'. simpl.
    by rewrite negb_involutive. }
  subst σ. rewrite remediate_all_pass. destruct F as [|m F].
  - rewrite bool_decide_true by done. unfold wbind, log_event, wret. simpl. done.
  - rewrite bool_decide_false by done. unfold wbind at 1.
    rewrite lift_reader by apply reader_py_iter. cbn [w_heap].
    assert (eval (py_iter key_order (VRef l)) h = Ok (m :: F)) as ->.
    { unfold eval, py_iter, bind, load. simpl. by rewrite Hl'. }
    unfold lift. rewrite remediate_each_pass. done.
Qed.

(** X22. A report without the ["misconfigurations"] key, or with a
    value there that is false in a condition, is not an error: the stage
    logs that there is nothing to do and returns the document; no
    finding is attempted. *)
Theorem main_remediate_nothing config report w f d :
  report = VRef f →
  w_heap w !! f = Some (ODict d) →
  (d !! "misconfigurations" = None ∨
   ∃ v, d !! "misconfigurations" = Some v ∧ eval (truthy v) (w_heap w) = Ok false) →
  main_remediate key_order config report w =
    (World (w_fs w) (<[fresh (dom (w_heap w)) := OList []]> (w_heap w))
           (w_log w ++ [Remediation NoMisconfigurations]) (w_out w),
     Done config).
Proof.
  intros -> Hf Hd. unfold main_remediate, py_get_or_empty.
  unfold wbind at 1. rewrite Hf.
  set (a := fresh (dom (w_heap w))). set (h := <[a := OList []]> (w_heap w)).
  assert (a ∉ dom (w_heap w)) as Ha by apply is_fresh.
  assert (eval (py_not (default (VRef a) (d !! "misconfigurations"))) h = Ok true)
    as Hnone.
  { destruct Hd as [->|(v & -> & Hv)]; simpl.
    - unfold eval, py_not, truthy, bind, load. simpl. unfold h.
      by rewrite lookup_insert_eq.
    - unfold py_not. mstep.
      assert (eval (truthy v) h = Ok false) as ->; [|done].
      destruct v as [| | | | |b]; try done.
      revert Hv. unfold eval, truthy, bind, load. simpl. unfold h.
      destruct (w_heap w !! b) as [o|] eqn:Hb; [|done].
      rewrite lookup_insert_ne; [by rewrite Hb|]. intros <-.
      apply elem_of_dom_2 in Hb. done. }
  unfold wbind at 1. rewrite lift_reader by eauto with reader. cbn [w_heap].
  simpl. rewrite Hnone. done.
Qed.

(** A value under ["misconfigurations"] that is true in a condition
    but cannot be iterated (a non-zero number, [True]) makes the [for]
    of line 181 raise [TypeError]. *)
Lemma main_remediate_not_iterable config report w f d v :
  report = VRef f →
  w_heap w !! f = Some (ODict d) →
  d !! "misconfigurations" = Some v →
  (∃ b, v = VBool b) ∨ (∃ n, v = VInt n) ∨ (∃ x, v = VFloat x) →
  eval (truthy v) (w_heap w) = Ok true →
  main_remediate key_order config report w =
    (World (w_fs w) (<[fresh (dom (w_heap w)) := OList []]> (w_heap w))
           (w_log w) (w_out w),
     Fail (Engine TypeError)).
Proof.
  intros -> Hf Hd Hv Ht. unfold main_remediate, py_get_or_empty.
  unfold wbind at 1. rewrite Hf, Hd. cbv [default from_option id].
  unfold wbind at 1. rewrite lift_reader by eauto with reader. cbn [w_heap].
  assert (eval (py_not v) (<[fresh (dom (w_heap w)) := OList []]> (w_heap w)) = Ok false) as ->.
  { unfold py_not. mstep.
    destruct Hv as [[b ->]|[[n ->]|[x ->]]]; revert Ht; unfold eval; simpl;
      by intros [= ->]. }
  unfold wbind at 1. rewrite lift_reader by apply reader_py_iter. cbn [w_heap].
  by destruct Hv as [[b ->]|[[n ->]|[x ->]]].
Qed.
End remediation_stage.

Lemma main_remediate_list_witness :
  let h := <[fresh (dom (w_heap report_world)) := OList []]> (w_heap report_world) in
  let σ := (remediate_all (VRef 1) [VRef 101] (State h [])).1 in
  main_remediate toy_key_order (VRef 1) (VRef 103) report_world =
    (World (w_fs report_world) (st_heap σ)
           (w_log report_world ++ (Remediation <$> st_log σ))
           (w_out report_world),
     Done (VRef 1)).
Proof.
  apply (main_remediate_list toy_key_order (VRef 1) (VRef 103) report_world
           103 {[ "misconfigurations" := VRef 102 ]} 102 [VRef 101]).
  - reflexivity.
  - vm_compute. reflexivity.
  - vm_compute. reflexivity.
  - vm_compute. reflexivity.
Defined.

Lemma main_remediate_nothing_witness :
  main_remediate toy_key_order (VRef 1) (VRef 104) report_world =
    (World (w_fs report_world)
           (<[fresh (dom (w_heap report_world)) := OList []]> (w_heap report_world))
           (w_log report_world ++ [Remediation NoMisconfigurations])
           (w_out report_world),
     Done (VRef 1)).
Proof.
  apply (main_remediate_nothing toy_key_order (VRef 1) (VRef 104) report_world
           104 ∅).
  - reflexivity.
  - vm_compute. reflexivity.
  - left. reflexivity.
Defined.

Section remediation_failure.
Context (yaml_safe_load json_load : string → heap → heap * parsed).
Context (yaml_dump json_dump : heap → value → string * bool).
Context (writable : string → bool).
Context (key_order : gmap string value → list string).

(** X23. A report whose ["misconfigurations"] is true in a condition
    but cannot be iterated (a non-zero number, [True]) ends the run in
    the [except] branch of [main]: when both files exist, the
    configuration and the report load and the backup stage passes, the
    [for] of line 181 raises [TypeError]; [main] logs it as its last
    record and exits with status 1.  The files and the standard output
    are as the backup stage left them: nothing is written or printed. *)
Theorem non_iterable_report_exits a w w1 w2 w3 loaded f d v :
  path_exists (config_file a) w = true →
  path_exists (report_file a) w = true →
  load_config_w yaml_safe_load json_load (config_file a) w = (w1, Done loaded) →
  load_report json_load (report_file a) w1 = (w2, Done (VRef f)) →
  main_backup writable a w2 = (w3, Done tt) →
  w_heap w3 !! f = Some (ODict d) →
  d !! "misconfigurations" = Some v →
  (∃ b, v = VBool b) ∨ (∃ n, v = VInt n) ∨ (∃ x, v = VFloat x) →
  eval (truthy v) (w_heap w3) = Ok true →
  main yaml_safe_load json_load yaml_dump json_dump writable key_order a w =
    (World (w_fs w3) (<[fresh (dom (w_heap w3)) := OList []]> (w_heap w3))
           (w_log w3 ++ [ErrorOccurred (Engine TypeError)]) (w_out w3),
     Exited 1).
Proof.
  intros Hc Hr H1 H2 H3 Hf Hd Hv Ht. unfold main. rewrite Hc, Hr. simpl.
  unfold main_body. unfold wbind at 1. rewrite H1.
  unfold wbind at 1. rewrite H2. unfold wbind at 1. rewrite H3.
  unfold wbind at 1.
  by rewrite (main_remediate_not_iterable key_order loaded.1 (VRef f) w3 f d v).
Qed.
End remediation_failure.

Lemma non_iterable_report_exits_witness :
  let h : heap := {[ 103 := ODict {[ "misconfigurations" := VInt 3 ]};
                     100 := ODict {[ "a" := VInt 0 ]} ]} in
  let w3 := World (plain {[ "config.yaml" := "a: 0"; "report.json" := "report";
                            "config.yaml.bak" := "a: 0" ]})
                  h [BackupCreated "config.yaml.bak"] [] in
  main toy_yaml_load count_json_load toy_dump toy_dump (λ _, true) toy_key_order
       (toy_args false true) toy_world =
    (World (w_fs w3) (<[fresh (dom (w_heap w3)) := OList []]> (w_heap w3))
           (w_log w3 ++ [ErrorOccurred (Engine TypeError)]) (w_out w3),
     Exited 1).
Proof.
  intros h w3.
  apply (non_iterable_report_exits toy_yaml_load count_json_load toy_dump toy_dump
           (λ _, true) toy_key_order (toy_args false true) toy_world
           (World (w_fs toy_world) {[ 100 := ODict {[ "a" := VInt 0 ]} ]} [] [])
           (World (w_fs toy_world) h [] [])
           w3 (VRef 100, "yaml") 103 {[ "misconfigurations" := VInt 3 ]} (VInt 3)).
  - vm_compute. reflexivity.
  - vm_compute. reflexivity.
  - vm_compute. reflexivity.
  - vm_compute. reflexivity.
  - vm_compute. reflexivity.
  - vm_compute. reflexivity.
  - vm_compute. reflexivity.
  - right. left. by exists 3%Z.
  - reflexivity.
Defined.
